(** * bakscanner: the scan engine of [app.py]

    A shallow embedding of the backup-file scanner: the string helpers the
    code takes from Python's [str], the path normalizer
    ([normalize_base_url]), the classification done inside
    [scan_single_target], the request parsing of [start_scan], and the
    lock-guarded task record shared by the probers and the orchestrator
    ([scan_worker]).

    A Python [str] is modelled by [string]; each character stands for the
    code point of the same number (U+0000 to U+00FF).  This range is closed
    under every string operation the program uses. *)

From Stdlib Require Import ZArith Ascii String Bool Lia.
From stdpp Require Import base option list strings.

Local Open Scope Z_scope.

(** ** Python string primitives *)

Module Str.

Definition code (c : ascii) : N := N_of_ascii c.

(** [str.isspace] on one character: the characters [str.strip] trims.  TAB,
    LF, VT, FF, CR, the separators FS GS RS US, space, NEL and the no-break
    space. *)
Definition isspace (c : ascii) : bool :=
  let n := code c in
  ((9 <=? n) && (n <=? 13) || (28 <=? n) && (n <=? 32)
   || (n =? 133) || (n =? 160))%N.

(** [str.lower] on one character: A-Z and the capital letters U+00C0 to
    U+00DE except the multiplication sign. *)
Definition lower_char (c : ascii) : ascii :=
  let n := code c in
  if ((65 <=? n) && (n <=? 90)
      || (192 <=? n) && (n <=? 222) && negb (n =? 215))%N
  then ascii_of_N (n + 32) else c.

Fixpoint lower (s : string) : string :=
  match s with
  | EmptyString => EmptyString
  | String c r => String (lower_char c) (lower r)
  end.

(** [s.startswith(p)] *)
Fixpoint startswith (s p : string) {struct p} : bool :=
  match p, s with
  | EmptyString, _ => true
  | String a p', String b s' => Ascii.eqb a b && startswith s' p'
  | String _ _, EmptyString => false
  end.

(** [s.endswith(p)]: some tail of [s] is [p]. *)
Fixpoint endswith (s p : string) : bool :=
  String.eqb s p ||
  match s with
  | EmptyString => false
  | String _ r => endswith r p
  end.

(** [p in s] *)
Fixpoint contains (s p : string) : bool :=
  startswith s p ||
  match s with
  | EmptyString => false
  | String _ r => contains r p
  end.

(** [s.lstrip(chars)] for a set of characters given as a predicate. *)
Fixpoint lstrip_by (f : ascii -> bool) (s : string) : string :=
  match s with
  | EmptyString => EmptyString
  | String c r => if f c then lstrip_by f r else s
  end.

Fixpoint rstrip_by (f : ascii -> bool) (s : string) : string :=
  match s with
  | EmptyString => EmptyString
  | String c r =>
      match rstrip_by f r with
      | EmptyString => if f c then EmptyString else String c EmptyString
      | r' => String c r'
      end
  end.

(** [s.strip()] *)
Definition strip (s : string) : string :=
  rstrip_by isspace (lstrip_by isspace s).

(** [s.replace(a, b)] for one-character [a] and [b]. *)
Fixpoint replace (a b : ascii) (s : string) : string :=
  match s with
  | EmptyString => EmptyString
  | String c r => String (if Ascii.eqb c a then b else c) (replace a b r)
  end.

Fixpoint drop (n : nat) (s : string) : string :=
  match n, s with
  | O, _ => s
  | S n', String _ r => drop n' r
  | S _, EmptyString => EmptyString
  end.

(** What follows the first occurrence of [sep] in [s], if any. *)
Fixpoint after_first (sep s : string) : option string :=
  if startswith s sep then Some (drop (String.length sep) s)
  else match s with
       | EmptyString => None
       | String _ r => after_first sep r
       end.

(** [s.split(sep, 1)[-1]] *)
Definition split1_last (sep s : string) : string :=
  default s (after_first sep s).

(** [not s] *)
Definition is_empty (s : string) : bool :=
  match s with EmptyString => true | _ => false end.


(** [c * n] for a one-character string [c]. *)
Fixpoint repeat (c : ascii) (n : nat) : string :=
  match n with
  | O => EmptyString
  | S n' => String c (repeat c n')
  end.

End Str.

(** ** [normalize_base_url] *)

Definition normalize_base_url (url : string) : string :=
  let url := Str.strip url in
  if Str.is_empty url then ""
  else
    let url :=
      if negb (Str.startswith url "http://") && negb (Str.startswith url "https://")
      then "http://" +:+ url else url in
    if negb (Str.endswith url "/") then url +:+ "/" else url.

(** ** Python's [int] on a string *)

Definition digit_value (c : ascii) : option Z :=
  let n := Str.code c in
  if ((48 <=? n) && (n <=? 57))%N then Some (Z.of_N n - 48) else None.

(** Decimal digits, single underscores allowed between two digits.
    [after_digit] tells whether the previous character was a digit. *)
Fixpoint int_digits (acc : Z) (after_digit : bool) (s : string) : option Z :=
  match s with
  | EmptyString => if after_digit then Some acc else None
  | String c r =>
      match digit_value c with
      | Some d => int_digits (10 * acc + d) true r
      | None =>
          if Ascii.eqb c "_" && after_digit then int_digits acc false r
          else None
      end
  end.

(** The characters [int] skips around a numeral: TAB, LF, VT, FF, CR and
    space, and NEL and the no-break space, which it reads as spaces.  Unlike
    [str.strip] it does not skip the separators FS, GS, RS and US. *)
Definition int_space (c : ascii) : bool :=
  let n := Str.code c in
  ((9 <=? n) && (n <=? 13) || (n =? 32) || (n =? 133) || (n =? 160))%N.

(** [sys.int_info.default_max_str_digits]: a numeral with more digits is
    refused.  Leading zeros count, underscores and the sign do not. *)
Definition int_max_str_digits : nat := 4300.

Fixpoint count_digits (s : string) : nat :=
  match s with
  | EmptyString => 0
  | String c r =>
      match digit_value c with
      | Some _ => S (count_digits r)
      | None => count_digits r
      end
  end.

(** [int(s)]: the whitespace of [int_space] is skipped at both ends, then
    come an optional sign and the digits, at most [int_max_str_digits] of
    them.  [None] stands for [ValueError]. *)
Definition py_int (s : string) : option Z :=
  match Str.rstrip_by int_space (Str.lstrip_by int_space s) with
  | String c r =>
      let signed := Ascii.eqb c "+" || Ascii.eqb c "-" in
      let body := if signed then r else String c r in
      if (int_max_str_digits <? count_digits body)%nat then None
      else if Ascii.eqb c "-" then Z.opp <$> int_digits 0 false body
      else int_digits 0 false body
  | EmptyString => None
  end.

(** ** The backup classifier *)

Definition BACKUP_SUFFIXES : list string :=
  [".bak"; ".zip"; ".rar"; ".7z"; ".tar"; ".tar.gz"; ".tgz";
   ".sql"; ".db"; ".old"; ".backup"].

Definition DEFAULT_PATHS : list string :=
  ["index.php.bak"; "index.jsp.bak"; "config.php.bak"; "wwwroot.zip";
   "website.zip"; "backup.zip"; "site_backup.zip"; "db.sql"; "backup.sql"].

Definition looks_like_backup (url : string) : bool :=
  let lower := Str.lower url in
  existsb (Str.endswith lower) BACKUP_SUFFIXES.

Inductive verdict :=
| Match     (* the response is saved *)
| SkipHtml  (* small HTML page behind a backup-like URL *)
| Invalid.  (* wrong status or no backup suffix *)

(** The decision of [scan_single_target] on [code], [content_type],
    [content_length] and [resp.url]. *)
Definition classify (code : Z) (content_type : string) (content_length : Z)
    (url : string) : verdict :=
  if ((code =? 200) || (code =? 206)) && looks_like_backup url then
    if Str.contains content_type "text/html"
       && (content_length <? 2 * 1024 * 1024)
    then SkipHtml else Match
  else Invalid.

(** What the prober reads from a response. *)
Record response := {
  status_code : Z;
  content_type_header : option string;    (* headers.get("Content-Type") *)
  content_length_header : option string;  (* headers.get("Content-Length") *)
  url : string;                           (* final URL, redirects followed *)
  saves : bool  (* [save_response_content], once back: returned or raised *)
}.

(** [(resp.headers.get("Content-Type") or "").lower()] *)
Definition content_type_of (h : option string) : string :=
  Str.lower (default "" h).

(** [int(resp.headers.get("Content-Length") or 0)]: the header goes to
    [int] as it is, untrimmed.  [None] stands for the [ValueError] of
    [int]. *)
Definition content_length_of (h : option string) : option Z :=
  match h with
  | None => Some 0
  | Some s => if Str.is_empty s then Some 0 else py_int s
  end.

(** Classification of a whole response; [None] when reading the headers
    raises. *)
Definition classify_response (r : response) : option verdict :=
  let code := status_code r in
  let content_type := content_type_of (content_type_header r) in
  content_length ← content_length_of (content_length_header r);
  Some (classify code content_type content_length (url r)).

(** ** Save paths *)

(** [os.path.join] of two components (POSIX). *)
Definition path_join (a b : string) : string :=
  if Str.startswith b "/" then b
  else if Str.is_empty a || Str.endswith a "/" then a +:+ b
  else a +:+ "/" +:+ b.

Definition host_tag_of (netloc : string) : string := Str.replace ":" "_" netloc.

Definition safe_name (final_url : string) : string :=
  Str.replace "/" "_" (Str.split1_last "://" final_url).

Definition save_path (output_dir host_tag final_url : string) : string :=
  let save_dir := path_join output_dir host_tag in
  path_join save_dir (safe_name final_url).

(** ** [start_scan]: reading the request *)

(** [str.splitlines] breaks a line at LF, VT, FF, CR, FS, GS, RS and NEL; a
    CR directly followed by LF is one break. *)
Definition is_linebreak (c : ascii) : bool :=
  let n := Str.code c in
  ((10 <=? n) && (n <=? 13) || (28 <=? n) && (n <=? 30) || (n =? 133))%N.

Definition is_cr (c : ascii) : bool := (Str.code c =? 13)%N.
Definition is_lf (c : ascii) : bool := (Str.code c =? 10)%N.

Fixpoint splitlines (s : string) : list string :=
  match s with
  | EmptyString => []
  | String c r =>
      let rest := splitlines r in
      if is_linebreak c then
        match r with
        | String d _ => if is_cr c && is_lf d then rest else "" :: rest
        | EmptyString => "" :: rest
        end
      else
        match rest with
        | [] => [String c ""]
        | l :: ls => String c l :: ls
        end
  end.


(** The loop [for line in text.splitlines(): line = f(line); if line: ...]. *)
Definition kept_lines (f : string -> string) (text : string) : list string :=
  filter (fun l => Str.is_empty l = false) (map f (splitlines text)).

Definition target_line (line : string) : string := Str.strip line.

(** [line.strip().lstrip("/\\")] *)
Definition is_slash (c : ascii) : bool :=
  Ascii.eqb c "/" || Ascii.eqb c "\".

Definition path_line (line : string) : string :=
  Str.lstrip_by is_slash (Str.strip line).

(** The keys of [dict.fromkeys(l)] in insertion order: a key already present
    keeps its place. *)
Definition fromkeys (l : list string) : list string :=
  fold_left (fun d k => if bool_decide (k ∈ d) then d else d ++ [k]) l [].

(** An uploaded file: absent (or without a file name), unreadable, or its
    decoded text. *)
Inductive upload :=
| NoFile
| Unreadable
| Content (text : string).

Record form := {
  targets_text : option string;
  targets_file : upload;
  dict_text : option string;
  dict_file : upload;
  threads : option string
}.

Definition text_lines (f : string -> string) (field : option string) : list string :=
  kept_lines f (Str.strip (default "" field)).

(** Lines of an upload; [None] when reading it fails. *)
Definition file_lines (f : string -> string) (u : upload) : option (list string) :=
  match u with
  | NoFile => Some []
  | Unreadable => None
  | Content text => Some (kept_lines f text)
  end.

(** Step 4 of [start_scan]: [(threads_raw or "5").strip()], then [int] with
    its fallback, then the two bounds. *)
Definition threads_text (threads_raw : option string) : string :=
  let threads_raw := default "5" threads_raw in
  Str.strip (if Str.is_empty threads_raw then "5" else threads_raw).

Definition resolve_max_workers (threads_raw : option string) : Z :=
  let max_workers := default 5 (py_int (threads_text threads_raw)) in
  let max_workers := if max_workers <=? 0 then 1 else max_workers in
  if max_workers >? 50 then 50 else max_workers.

(** ** The task record *)

Inductive target_state := Pending | Scanning | Done.

Record target_status := {
  name : string;
  status : target_state;
  found : Z
}.

Inductive log_entry :=
| LogScanStart (base_url : string)       (* "===== 开始扫描：{base_url} =====" *)
| LogTest (full_url : string)            (* "[+] 测试：{full_url}" *)
| LogRequestError                        (* "[-] 请求错误：{e}" *)
| LogHtmlSkipped (final_url : string)    (* "[-] 看起来是HTML页面，跳过：{resp.url}" *)
| LogFound (final_url : string)          (* "[!] 发现疑似备份文件：{resp.url}" *)
| LogSavedTo (path : string)             (* "    保存到：{save_path}" *)
| LogSaveFailed                          (* "[-] 保存失败：{e}" *)
| LogInvalid (code : Z) (final_url : string)  (* "[-] 无效（HTTP {code}）：{resp.url}" *)
| LogTargetDone (base_url : string) (n total : Z)  (* "[*] 目标 ... 扫描完成 (n/total)" *)
| LogTaskStart (n_targets n_paths pool : Z)   (* "[*] 启动扫描任务：..." *)
| LogDownloadDir (dir : string)          (* "[*] 备份文件将保存到：{DOWNLOAD_DIR}" *)
| LogThreadError                         (* "[!] 线程执行异常：{e}" *)
| LogTraceback                           (* traceback.format_exc() *)
| LogAllDone.                            (* "[*] 所有目标扫描完成。" *)

Record task := {
  id : string;
  logs : list log_entry;
  targets : list target_status;
  total_targets : Z;
  finished_targets : Z;
  paths : list string;
  max_workers : Z;
  done : bool
}.

Inductive start_result :=
| Created (t : task)
| Rejected (code : Z).

Definition new_task (task_id : string) (ts ps : list string) (workers : Z) : task :=
  {| id := task_id;
     logs := [];
     targets := map (fun t => {| name := t; status := Pending; found := 0 |}) ts;
     total_targets := Z.of_nat (length ts);
     finished_targets := 0;
     paths := ps;
     max_workers := workers;
     done := false |}.

(** Steps 1 and 2 of [start_scan]: the lines of the text box, then those of
    the uploaded file, before de-duplication. *)
Definition target_lines (f : form) : option (list string) :=
  from_file ← file_lines target_line (targets_file f);
  Some (text_lines target_line (targets_text f) ++ from_file).

(** Step 3 of [start_scan]: the dictionary lines, text box first. *)
Definition dictionary_lines (f : form) : option (list string) :=
  from_file ← file_lines path_line (dict_file f);
  Some (text_lines path_line (dict_text f) ++ from_file).

Definition start_scan (task_id : string) (f : form) : start_result :=
  match target_lines f with
  | None => Rejected 400
  | Some ts =>
      let ts := fromkeys ts in
      match ts with
      | [] => Rejected 400
      | _ =>
          match dictionary_lines f with
          | None => Rejected 400
          | Some ps =>
              let ps := match ps with [] => DEFAULT_PATHS | _ => ps end in
              Created (new_task task_id ts ps (resolve_max_workers (threads f)))
          end
      end
  end.

(** ** Lock-guarded mutations of the task *)

Definition log_line (t : task) (msg : log_entry) : task :=
  {| id := id t; logs := logs t ++ [msg]; targets := targets t;
     total_targets := total_targets t; finished_targets := finished_targets t;
     paths := paths t; max_workers := max_workers t; done := done t |}.

(** The keyword arguments [update_target_status] is called with. *)
Inductive field_update :=
| SetStatus (s : target_state)
| SetFound (n : Z).

Definition apply_update (u : field_update) (ts : target_status) : target_status :=
  match u with
  | SetStatus s => {| name := name ts; status := s; found := found ts |}
  | SetFound n => {| name := name ts; status := status ts; found := n |}
  end.

(** [task["targets"][index][k] = v]; [None] stands for the [IndexError] of an
    index outside the list. *)
Definition update_target_status (t : task) (index : nat) (u : field_update)
    : option task :=
  if bool_decide (index < length (targets t))%nat then
    Some {| id := id t; logs := logs t;
            targets := alter (apply_update u) index (targets t);
            total_targets := total_targets t;
            finished_targets := finished_targets t;
            paths := paths t; max_workers := max_workers t; done := done t |}
  else None.

(** [task["finished_targets"] += 1] *)
Definition incr_finished (t : task) : task :=
  {| id := id t; logs := logs t; targets := targets t;
     total_targets := total_targets t;
     finished_targets := finished_targets t + 1;
     paths := paths t; max_workers := max_workers t; done := done t |}.

(** [task["done"] = True] *)
Definition mark_done (t : task) : task :=
  {| id := id t; logs := logs t; targets := targets t;
     total_targets := total_targets t; finished_targets := finished_targets t;
     paths := paths t; max_workers := max_workers t; done := true |}.

(** ** The world outside the program *)

(** The outcome of a request that has come back.  A request or a download
    that does not come back is no outcome: in a run of the scan it is a
    prober that takes no further step (see [sys_step]). *)
Inductive fetch :=
| RequestError         (* [session.get] raises [requests.RequestException] *)
| OtherError           (* [session.get] raises another exception *)
| Got (r : response).

(** Library calls and the network.  [None] stands for an exception raised by
    the call.  [session_get i k u] is the outcome of the request for [u] made
    by the prober of target [i] at position [k] of the path list. *)
Record env := {
  DOWNLOAD_DIR : string;
  urlparse_netloc : string -> option string;
  urljoin : string -> string -> option string;
  session_get : nat -> nat -> string -> fetch
}.

(** ** [scan_single_target] *)

(** What remains to run of one prober: a sequence of critical sections, each
    taken under [TASKS_LOCK], ended by a return or an exception.  An update
    of a target carries what follows it and what runs instead when the update
    raises: the exception itself, or the handler of the enclosing [try]. *)
Inductive prog :=
| Return
| Raise
| LogLine (msg : log_entry) (k : prog)
| UpdateTarget (index : nat) (u : field_update) (k on_error : prog)
| Finish (base_url : string)
| Report (base_url : string) (n total : Z).

Section Prober.
Context (E : env).

(** The [for path in paths] loop and what follows it. *)
Fixpoint probe_paths (target_index : nat) (base_url host_tag output_dir : string)
    (pos : nat) (found_count : Z) (ps : list string) : prog :=
  match ps with
  | [] => UpdateTarget target_index (SetStatus Done) (Finish base_url) Raise
  | path :: rest =>
      match urljoin E base_url path with
      | None => Raise
      | Some full_url =>
          LogLine (LogTest full_url)
            match session_get E target_index pos full_url with
            | RequestError =>
                LogLine LogRequestError
                  (probe_paths target_index base_url host_tag output_dir
                     (S pos) found_count rest)
            | OtherError => Raise
            | Got resp =>
                let code := status_code resp in
                let content_type := content_type_of (content_type_header resp) in
                match content_length_of (content_length_header resp) with
                | None => Raise
                | Some content_length =>
                    match classify code content_type content_length (url resp) with
                    | SkipHtml =>
                        LogLine (LogHtmlSkipped (url resp))
                          (probe_paths target_index base_url host_tag output_dir
                             (S pos) found_count rest)
                    | Match =>
                        LogLine (LogFound (url resp))
                          (LogLine (LogSavedTo (save_path output_dir host_tag (url resp)))
                             (if saves resp then
                                UpdateTarget target_index (SetFound (found_count + 1))
                                  (probe_paths target_index base_url host_tag
                                     output_dir (S pos) (found_count + 1) rest)
                                  (LogLine LogSaveFailed
                                     (probe_paths target_index base_url host_tag
                                        output_dir (S pos) (found_count + 1) rest))
                              else
                                LogLine LogSaveFailed
                                  (probe_paths target_index base_url host_tag
                                     output_dir (S pos) found_count rest)))
                    | Invalid =>
                        LogLine (LogInvalid code (url resp))
                          (probe_paths target_index base_url host_tag output_dir
                             (S pos) found_count rest)
                    end
                end
            end
      end
  end.

Definition scan_single_target (target_index : nat) (target output_dir : string)
    (ps : list string) : prog :=
  let base_url := normalize_base_url target in
  if Str.is_empty base_url then Return
  else
    UpdateTarget target_index (SetStatus Scanning)
      (LogLine (LogScanStart base_url)
         match urlparse_netloc E base_url with
         | None => Raise
         | Some netloc =>
             probe_paths target_index base_url (host_tag_of netloc) output_dir
               0 0 ps
         end)
      Raise.

End Prober.

(** What a prober's remaining run shows when every update finds its target:
    whether it reaches the increment of [finished_targets], the URLs it tests
    and the files it saves to, in order. *)
Fixpoint completes (p : prog) : bool :=
  match p with
  | LogLine _ k | UpdateTarget _ _ k _ => completes k
  | Finish _ => true
  | Return | Raise | Report _ _ _ => false
  end.

Fixpoint tested (p : prog) : list string :=
  match p with
  | LogLine (LogTest full_url) k => full_url :: tested k
  | LogLine _ k | UpdateTarget _ _ k _ => tested k
  | _ => []
  end.

Fixpoint saved (p : prog) : list string :=
  match p with
  | LogLine (LogSavedTo path) k => path :: saved k
  | LogLine _ k | UpdateTarget _ _ k _ => saved k
  | _ => []
  end.


(** How a prober has ended. *)
Definition returned (p : prog) : bool :=
  match p with Return => true | _ => false end.

Definition raised (p : prog) : bool :=
  match p with Raise => true | _ => false end.

(** A prober past its increment of [finished_targets]: it reports the
    counters it read, or has returned after that.  (In the scan of a created
    task no prober takes the early return, see [scan_worker_inv].) *)
Definition counted (p : prog) : bool :=
  match p with Return | Report _ _ _ => true | _ => false end.

(** A prober before its increment: what remains of it ends in the increment
    or in an exception. *)
Fixpoint uncounted (p : prog) : bool :=
  match p with
  | LogLine _ k => uncounted k
  | UpdateTarget _ _ k on_error => uncounted k && uncounted on_error
  | Finish _ | Raise => true
  | Return | Report _ _ _ => false
  end.

(** One critical section of a prober. *)
Definition prog_step (p : prog) (t : task) : option (task * prog) :=
  match p with
  | Return | Raise => None
  | LogLine msg k => Some (log_line t msg, k)
  | UpdateTarget index u k on_error =>
      match update_target_status t index u with
      | Some t' => Some (t', k)
      | None => Some (t, on_error)
      end
  | Finish base_url =>
      let t' := incr_finished t in
      Some (t', Report base_url (finished_targets t') (total_targets t'))
  | Report base_url n total =>
      Some (log_line t (LogTargetDone base_url n total), Return)
  end.

Definition terminated (p : prog) : bool :=
  match p with Return | Raise => true | _ => false end.

(** ** [scan_worker] *)

(** Where the orchestrator thread stands. *)
Inductive orch :=
| Announce1            (* before the first log line *)
| Announce2            (* before the second log line *)
| Collecting (i : nat) (* in the pool, about to call [futures[i].result()] *)
| Tracing (i : nat)    (* future [i] raised: message logged, traceback next *)
| Closing              (* [finally]: about to log the last line *)
| Marking              (* about to set [done] *)
| Stopped.

(** The task, what remains of each submitted prober, and the orchestrator.
    Every step below is one critical section.  The probers are all there
    from the moment the pool opens and any of them may take the next step:
    the bound on the pool and the order of submission only rule
    interleavings out. *)
Record sys := {
  shared : task;
  workers : list prog;
  main : orch
}.

Definition pool_size (t : task) : Z :=
  let max_workers := Z.min (Z.of_nat (length (targets t))) (max_workers t) in
  if max_workers <? 1 then 1 else max_workers.

(** The probers submitted by [scan_worker], one per target. *)
Definition submitted (E : env) (t : task) : list prog :=
  imap (fun idx target =>
          scan_single_target E idx (name target) (DOWNLOAD_DIR E) (paths t))
       (targets t).

Definition scan_worker (E : env) (t : task) : sys :=
  {| shared := t; workers := submitted E t; main := Announce1 |}.

Definition pool_open (o : orch) : bool :=
  match o with Collecting _ | Tracing _ => true | _ => false end.

(** One step of the orchestrator thread; [None] while it is blocked. *)
Definition main_step (E : env) (s : sys) : option sys :=
  let t := shared s in
  match main s with
  | Announce1 =>
      Some {| shared := log_line t (LogTaskStart (Z.of_nat (length (targets t)))
                                      (Z.of_nat (length (paths t))) (pool_size t));
              workers := workers s; main := Announce2 |}
  | Announce2 =>
      Some {| shared := log_line t (LogDownloadDir (DOWNLOAD_DIR E));
              workers := workers s; main := Collecting 0 |}
  | Collecting i =>
      match workers s !! i with
      | None =>
          if forallb terminated (workers s)
          then Some {| shared := t; workers := workers s; main := Closing |}
          else None
      | Some Return =>
          Some {| shared := t; workers := workers s; main := Collecting (S i) |}
      | Some Raise =>
          Some {| shared := log_line t LogThreadError;
                  workers := workers s; main := Tracing i |}
      | Some _ => None
      end
  | Tracing i =>
      Some {| shared := log_line t LogTraceback;
              workers := workers s; main := Collecting (S i) |}
  | Closing =>
      Some {| shared := log_line t LogAllDone; workers := workers s; main := Marking |}
  | Marking =>
      Some {| shared := mark_done t; workers := workers s; main := Stopped |}
  | Stopped => None
  end.

(** One critical section of prober [i]; the pool must be running. *)
Definition worker_step (i : nat) (s : sys) : option sys :=
  if pool_open (main s) then
    p ← workers s !! i;
    '(t', p') ← prog_step p (shared s);
    Some {| shared := t'; workers := <[i := p']> (workers s); main := main s |}
  else None.

(** The scheduler's choice of the thread that takes the lock next. *)
Inductive choice :=
| RunMain
| RunWorker (i : nat).

Definition sys_step (E : env) (c : choice) (s : sys) : option sys :=
  match c with
  | RunMain => main_step E s
  | RunWorker i => worker_step i s
  end.

(** An interleaving, given as the list of the scheduler's choices. *)
Fixpoint run (E : env) (sched : list choice) (s : sys) : option sys :=
  match sched with
  | [] => Some s
  | c :: rest =>
      match sys_step E c s with
      | Some s' => run E rest s'
      | None => None
      end
  end.

Definition pool_closed (o : orch) : bool :=
  match o with Closing | Marking | Stopped => true | _ => false end.

(** What holds of the task and its probers in every state of a scan. *)
Record sys_inv (s : sys) : Prop := {
  inv_total : total_targets (shared s) = Z.of_nat (length (workers s));
  inv_finished :
    finished_targets (shared s)
    = Z.of_nat (length (filter (fun p => counted p = true) (workers s)));
  inv_workers : Forall (fun p => counted p || uncounted p = true) (workers s);
  inv_done : done (shared s) = true -> main s = Stopped;
  inv_closed :
    pool_closed (main s) = true ->
    Forall (fun p => terminated p = true) (workers s)
}.

(** The snapshot [progress] returns. *)
Definition progress (t : task)
    : bool * list log_entry * list target_status * Z * Z :=
  (done t, logs t, targets t, total_targets t, finished_targets t).

(** ** Reading a scan off the world *)

(** Whether the attempt on [path] at position [pos] gets past its last
    unguarded line: the join does not raise, the request ends in a response
    or in a [requests.RequestException], and the declared length parses. *)
Definition attempt_ok (E : env) (target_index pos : nat) (base_url path : string)
    : bool :=
  match urljoin E base_url path with
  | None => false
  | Some full_url =>
      match session_get E target_index pos full_url with
      | RequestError => true
      | OtherError => false
      | Got resp =>
          match content_length_of (content_length_header resp) with
          | Some _ => true
          | None => false
          end
      end
  end.




(** Whether the attempt on [path] at position [pos] ends with the response
    written to disk. *)
Definition persists (E : env) (target_index pos : nat) (base_url path : string)
    : bool :=
  match urljoin E base_url path with
  | None => false
  | Some full_url =>
      match session_get E target_index pos full_url with
      | Got resp =>
          match classify_response resp with
          | Some Match => saves resp
          | _ => false
          end
      | _ => false
      end
  end.

(** The number of attempts of a path list that persist, counted from
    position [pos]. *)
Fixpoint persisted (E : env) (target_index pos : nat) (base_url : string)
    (ps : list string) : Z :=
  match ps with
  | [] => 0
  | path :: rest =>
      (if persists E target_index pos base_url path then 1 else 0)
      + persisted E target_index (S pos) base_url rest
  end.

(** A prober run on its own, from its first critical section to its end. *)
Fixpoint exec (p : prog) (t : task) : task * prog :=
  match p with
  | Return | Raise => (t, p)
  | LogLine msg k => exec k (log_line t msg)
  | UpdateTarget index u k on_error =>
      match update_target_status t index u with
      | Some t' => exec k t'
      | None => exec on_error t
      end
  | Finish base_url =>
      let t' := incr_finished t in
      (log_line t' (LogTargetDone base_url (finished_targets t') (total_targets t')),
       Return)
  | Report base_url n total =>
      (log_line t (LogTargetDone base_url n total), Return)
  end.

(** The order of the states of a target, and of two readings of one target. *)
Definition state_rank (st : target_state) : nat :=
  match st with Pending => 0 | Scanning => 1 | Done => 2 end.

Definition target_le (a b : target_status) : Prop :=
  name a = name b
  /\ (state_rank (status a) <= state_rank (status b))%nat
  /\ found a <= found b.

(** [follows i st fc p]: every update left in [p] addresses target [i], and
    starting from status [st] and found count [fc] no update of [p] moves the
    status back or the found count down. *)
Fixpoint follows (i : nat) (st : target_state) (fc : Z) (p : prog) : Prop :=
  match p with
  | LogLine _ k => follows i st fc k
  | UpdateTarget index (SetStatus st') k on_error =>
      index = i /\ (state_rank st <= state_rank st')%nat
      /\ follows i st' fc k /\ follows i st fc on_error
  | UpdateTarget index (SetFound n) k on_error =>
      index = i /\ fc <= n /\ follows i st n k /\ follows i st fc on_error
  | _ => True
  end.

(** The probers of a scan keep to their own targets. *)
Definition targets_inv (s : sys) : Prop :=
  forall i p,
    workers s !! i = Some p ->
    exists ts,
      targets (shared s) !! i = Some ts /\ follows i (status ts) (found ts) p.

#[global] Instance target_state_eq_dec : EqDecision target_state.
Proof. solve_decision. Defined.

(** [before_done i p]: [p] is what remains of a prober of target [i] that
    has not marked its target done; the mark, when it comes, is its last
    update and the increment of [finished_targets] follows at once. *)
Fixpoint before_done (i : nat) (p : prog) : Prop :=
  match p with
  | LogLine _ k => before_done i k
  | UpdateTarget index (SetStatus Done) k on_error =>
      index = i
      /\ match k with Finish _ => True | _ => False end
      /\ on_error = Raise
  | UpdateTarget index _ k on_error =>
      index = i /\ before_done i k /\ before_done i on_error
  | Raise => True
  | Return | Finish _ | Report _ _ _ => False
  end.

(** A prober past the mark. *)
Definition after_done (p : prog) : bool :=
  match p with Finish _ | Report _ _ _ | Return => true | _ => false end.

(** The status "done" of a target tells where its prober stands. *)
Definition marks_inv (s : sys) : Prop :=
  length (targets (shared s)) = length (workers s)
  /\ forall i p,
       workers s !! i = Some p ->
       exists ts,
         targets (shared s) !! i = Some ts
         /\ (before_done i p /\ status ts <> Done
             \/ after_done p = true /\ status ts = Done).

(** A bound on the critical sections a prober has left, and on the steps the
    orchestrator has left once [n] probers have ended. *)
Fixpoint size (p : prog) : nat :=
  match p with
  | Return | Raise => 0
  | LogLine _ k => S (size k)
  | UpdateTarget _ _ k on_error => S (size k `max` size on_error)
  | Finish _ => 2
  | Report _ _ _ => 1
  end.

Definition orch_rank (n : nat) (o : orch) : nat :=
  match o with
  | Announce1 => 2 * n + 5
  | Announce2 => 2 * n + 4
  | Collecting i => 2 * (n - i) + 3
  | Tracing i => 2 * (n - S i) + 4
  | Closing => 2
  | Marking => 1
  | Stopped => 0
  end.

Definition steps_left (s : sys) : nat :=
  (sum_list (size <$> workers s) + orch_rank (length (workers s)) (main s))%nat.

(** A small world to run the model in: the network location is what lies
    between "://" and the next "/", "?" or "#", and [urlparse] raises when it
    holds one square bracket without the other; a relative path is joined by
    appending it to the base URL; the network is left to the caller. *)
Definition is_netloc_end (c : ascii) : bool :=
  Ascii.eqb c "/" || Ascii.eqb c "?" || Ascii.eqb c "#".

Fixpoint take_until (f : ascii -> bool) (s : string) : string :=
  match s with
  | EmptyString => EmptyString
  | String c r => if f c then EmptyString else String c (take_until f r)
  end.

Definition plain_netloc (u : string) : option string :=
  let netloc := take_until is_netloc_end (Str.split1_last "://" u) in
  if xorb (Str.contains netloc "[") (Str.contains netloc "]") then None
  else Some netloc.

Definition plain_env (net : nat -> nat -> string -> fetch) : env :=
  {| DOWNLOAD_DIR := "/srv/app/downloads";
     urlparse_netloc := plain_netloc;
     urljoin := fun base path => Some (base +:+ path);
     session_get := net |}.

(** * Properties *)

(** ** Facts on the string primitives *)

Section StrFacts.
Implicit Types (s t p : string) (c : ascii).

Lemma app_cons c s t : String c s +:+ t = String c (s +:+ t).
Proof. done. Qed.

Lemma app_empty_l s : "" +:+ s = s.
Proof. done. Qed.

Lemma app_empty_r s : s +:+ "" = s.
Proof. induction s as [|a s IH]; [done | by rewrite app_cons, IH]. Qed.

Lemma app_is_empty s t : s +:+ t = "" -> s = "" /\ t = "".
Proof.
  destruct s; [rewrite app_empty_l; by intros -> | by rewrite app_cons].
Qed.

Lemma startswith_cons a b s p :
  Str.startswith (String b s) (String a p) = Ascii.eqb a b && Str.startswith s p.
Proof. done. Qed.

Lemma startswith_app s t : Str.startswith (s +:+ t) s = true.
Proof.
  induction s as [|a s IH]; [done |].
  rewrite app_cons; simpl. by rewrite Ascii.eqb_refl, IH.
Qed.

Lemma startswith_app_l s t p :
  Str.startswith s p = true -> Str.startswith (s +:+ t) p = true.
Proof.
  revert s; induction p as [|a p IH]; intros [|b s]; try done.
  rewrite app_cons; simpl.
  intros [-> Hp]%andb_true_iff. by rewrite IH.
Qed.

Lemma endswith_cons c s p :
  Str.endswith (String c s) p = String.eqb (String c s) p || Str.endswith s p.
Proof. done. Qed.

Lemma endswith_empty p : Str.endswith "" p = String.eqb "" p.
Proof. apply orb_false_r. Qed.

Lemma eqb_iff s1 s2 t1 t2 :
  (s1 = s2 <-> t1 = t2) -> String.eqb s1 s2 = String.eqb t1 t2.
Proof.
  intros H. destruct (String.eqb_spec s1 s2), (String.eqb_spec t1 t2); tauto.
Qed.

Lemma endswith_refl s : Str.endswith s s = true.
Proof.
  destruct s; [done |]. by rewrite endswith_cons, String.eqb_refl.
Qed.

Lemma endswith_app s p : Str.endswith (s +:+ p) p = true.
Proof.
  induction s as [|a s IH]; [apply endswith_refl |].
  rewrite app_cons, endswith_cons, IH. apply orb_true_r.
Qed.

Lemma endswith_empty_l p : Str.endswith "" p = true -> p = "".
Proof. rewrite endswith_empty. intros H%String.eqb_eq. congruence. Qed.

(** Before a non-empty [s], a prefix does not change which last character
    the string has. *)
Lemma endswith_app_char p s c :
  s <> "" -> Str.endswith (p +:+ s) (String c "") = Str.endswith s (String c "").
Proof.
  intros Hs. induction p as [|a p IH]; [done |].
  rewrite app_cons, endswith_cons, IH.
  replace (String.eqb _ _) with false; [done |].
  symmetry. apply String.eqb_neq. intros [= _ Hps].
  by apply app_is_empty in Hps as [_ ?].
Qed.

Lemma endswith_snoc2 s c d :
  Str.endswith (s +:+ String c "") (String d (String c ""))
  = Str.endswith s (String d "").
Proof.
  induction s as [|a s IH].
  - rewrite app_empty_l, endswith_cons, !endswith_empty.
    replace (String.eqb (String c "") _) with false; [done |].
    symmetry. by apply String.eqb_neq.
  - rewrite app_cons, !endswith_cons, IH. f_equal.
    apply eqb_iff. split.
    + intros [= -> Hs]. destruct s as [|b s]; [done |].
      rewrite app_cons in Hs. injection Hs as _ Hs.
      by apply app_is_empty in Hs as [_ ?].
    + by intros [= -> ->].
Qed.

Lemma lstrip_by_head f c s :
  f c = false -> Str.lstrip_by f (String c s) = String c s.
Proof. intros Hc; simpl. by rewrite Hc. Qed.

Lemma rstrip_by_last f s c :
  Str.endswith s (String c "") = true -> f c = false -> Str.rstrip_by f s = s.
Proof.
  intros Hs Hc. induction s as [|a s IH]; [done |].
  rewrite endswith_cons in Hs. apply orb_true_iff in Hs as [Hs|Hs].
  - apply String.eqb_eq in Hs as [= -> ->]. simpl. by rewrite Hc.
  - simpl. rewrite (IH Hs). destruct s; [|done].
    by apply endswith_empty_l in Hs.
Qed.

Lemma is_empty_true s : Str.is_empty s = true <-> s = "".
Proof. by destruct s. Qed.

Lemma is_empty_false s : Str.is_empty s = false <-> s <> "".
Proof. by destruct s. Qed.

Lemma str_app_assoc s t (b : string) : (s +:+ t) +:+ b = s +:+ t +:+ b.
Proof. induction s as [|c s IH]; [done | by rewrite !app_cons, IH]. Qed.

Lemma lower_app s t : Str.lower (s +:+ t) = Str.lower s +:+ Str.lower t.
Proof.
  induction s as [|c s IH]; [done |].
  rewrite app_cons. cbn [Str.lower]. by rewrite IH, app_cons.
Qed.

Lemma length_lower s : String.length (Str.lower s) = String.length s.
Proof. induction s as [|a s IH]; [done | simpl; by rewrite IH]. Qed.

Lemma startswith_lower s p :
  Str.startswith s p = true -> Str.startswith (Str.lower s) (Str.lower p) = true.
Proof.
  revert s; induction p as [|a p IH]; intros [|b s]; try done.
  cbn [Str.lower]. rewrite !startswith_cons.
  intros [->%Ascii.eqb_eq Hp]%andb_true_iff.
  by rewrite Ascii.eqb_refl, IH.
Qed.

(** A prefix of the length of [p] that [startswith] accepts is [p]. *)
Lemma startswith_same_length pre rest p :
  Str.startswith (pre +:+ rest) p = true ->
  String.length pre = String.length p -> pre = p.
Proof.
  revert pre; induction p as [|a p IH]; intros [|b pre]; try done.
  rewrite app_cons, startswith_cons.
  intros [->%Ascii.eqb_eq Hp]%andb_true_iff [= Hlen]. f_equal. by apply IH.
Qed.

End StrFacts.

(** ** The path normalizer *)

Section Normalizer.
Implicit Types (s u : string).

Lemma normalize_blank s : Str.strip s = "" -> normalize_base_url s = "".
Proof. unfold normalize_base_url. by intros ->. Qed.

(** A string that opens with a scheme and closes with a slash has no
    whitespace to trim at either end. *)
Lemma strip_url u :
  Str.startswith u "http://" = true \/ Str.startswith u "https://" = true ->
  Str.endswith u "/" = true ->
  Str.strip u = u.
Proof.
  intros Hscheme Hslash. unfold Str.strip.
  assert (Hhead : exists r, u = String "h" r).
  { destruct u as [|a r]; [by destruct Hscheme |].
    exists r. destruct Hscheme as [H|H]; rewrite startswith_cons in H;
      apply andb_true_iff in H as [<-%Ascii.eqb_eq _]; done. }
  destruct Hhead as [r ->].
  rewrite lstrip_by_head by done.
  by apply rstrip_by_last with (c := "/"%char).
Qed.

Lemma normalize_scheme_slash s :
  Str.strip s <> "" ->
  (Str.startswith (normalize_base_url s) "http://" = true
   \/ Str.startswith (normalize_base_url s) "https://" = true)
  /\ Str.endswith (normalize_base_url s) "/" = true.
Proof.
  intros Hs. unfold normalize_base_url.
  apply is_empty_false in Hs as ->.
  set (u := Str.strip s).
  destruct (Str.startswith u "http://") eqn:H1;
    [|destruct (Str.startswith u "https://") eqn:H2]; cbn [negb andb].
  - destruct (Str.endswith u "/") eqn:H3; cbn [negb]; split;
      auto using startswith_app_l, endswith_app.
  - destruct (Str.endswith u "/") eqn:H3; cbn [negb]; split;
      auto using startswith_app_l, endswith_app.
  - destruct (Str.endswith ("http://" +:+ u) "/") eqn:H3; cbn [negb];
      split; auto using startswith_app, startswith_app_l, endswith_app.
Qed.

Lemma normalize_fixed u :
  Str.startswith u "http://" = true \/ Str.startswith u "https://" = true ->
  Str.endswith u "/" = true ->
  normalize_base_url u = u.
Proof.
  intros Hscheme Hslash. unfold normalize_base_url.
  rewrite (strip_url u Hscheme Hslash).
  assert (Str.is_empty u = false) as ->.
  { destruct u; [by destruct Hscheme | done]. }
  assert (negb (Str.startswith u "http://")
          && negb (Str.startswith u "https://") = false) as ->.
  { destruct Hscheme as [-> | ->]; by rewrite ?andb_false_r. }
  by rewrite Hslash.
Qed.

(** Without a scheme, the output is the trimmed input behind "http://",
    with a slash appended unless the trimmed input ends in one. *)
Lemma normalize_no_scheme s :
  Str.strip s <> "" ->
  Str.startswith (Str.strip s) "http://" = false ->
  Str.startswith (Str.strip s) "https://" = false ->
  normalize_base_url s =
    "http://" +:+ Str.strip s
      +:+ (if Str.endswith (Str.strip s) "/" then "" else "/").
Proof.
  intros Hs H1 H2. unfold normalize_base_url.
  rewrite H1, H2. pose proof Hs as ->%is_empty_false. cbn [negb andb].
  cbv iota. rewrite (endswith_app_char "http://" _ _ Hs).
  destruct (Str.endswith (Str.strip s) "/"); cbn [negb].
  - by rewrite app_empty_r.
  - by rewrite !app_cons, !app_empty_l.
Qed.

End Normalizer.

(** C4, as stated, fails: an input that already ends in two slashes keeps
    both of them. *)
Lemma C4_two_slashes_kept :
  "example.com//" <> ""
  /\ Str.startswith "example.com//" "http://" = false
  /\ Str.startswith "example.com//" "https://" = false
  /\ normalize_base_url "example.com//" = "http://example.com//"
  /\ Str.endswith (normalize_base_url "example.com//") "//" = true.
Proof. repeat split; done. Qed.

(** A raw string of whitespace alone is non-empty and has no scheme, yet the
    output is empty. *)
Lemma normalize_whitespace_only :
  " " <> "" /\ normalize_base_url " " = "".
Proof. split; done. Qed.

(** C4 (amended): when the trimmed input is non-empty and has no scheme
    prefix, the output starts with "http://" and ends with "/"; it ends with
    exactly one "/" when the trimmed input does not end in "/", and otherwise
    it is "http://" followed by the trimmed input, whose trailing slashes are
    all kept. *)
Theorem C4_normalize_without_scheme (s : string) :
  Str.strip s <> "" ->
  Str.startswith (Str.strip s) "http://" = false ->
  Str.startswith (Str.strip s) "https://" = false ->
  Str.startswith (normalize_base_url s) "http://" = true
  /\ Str.endswith (normalize_base_url s) "/" = true
  /\ (Str.endswith (Str.strip s) "/" = false ->
      Str.endswith (normalize_base_url s) "//" = false)
  /\ (Str.endswith (Str.strip s) "/" = true ->
      normalize_base_url s = "http://" +:+ Str.strip s).
Proof.
  intros Hs H1 H2. rewrite (normalize_no_scheme s Hs H1 H2).
  split; [apply startswith_app |].
  destruct (Str.endswith (Str.strip s) "/") eqn:Hend.
  - rewrite app_empty_r. split; [|done].
    by rewrite endswith_app_char.
  - split; [|split; [|done]].
    + replace ("http://" +:+ Str.strip s +:+ "/")
        with (("http://" +:+ Str.strip s) +:+ "/"); [apply endswith_app |].
      by rewrite !app_cons, !app_empty_l.
    + intros _.
      replace ("http://" +:+ Str.strip s +:+ "/")
        with (("http://" +:+ Str.strip s) +:+ "/")
        by (by rewrite !app_cons, !app_empty_l).
      rewrite endswith_snoc2. by rewrite endswith_app_char.
Qed.

Lemma C4_normalize_without_scheme_witness :
  Str.startswith (normalize_base_url " example.com ") "http://" = true
  /\ Str.endswith (normalize_base_url " example.com ") "/" = true
  /\ (Str.endswith (Str.strip " example.com ") "/" = false ->
      Str.endswith (normalize_base_url " example.com ") "//" = false)
  /\ (Str.endswith (Str.strip " example.com ") "/" = true ->
      normalize_base_url " example.com " = "http://" +:+ Str.strip " example.com ").
Proof.
  apply (C4_normalize_without_scheme " example.com "); [done | reflexivity | reflexivity].
Defined.

(** C9: normalizing twice gives the same result as normalizing once. *)
Theorem C9_normalize_idempotent (s : string) :
  normalize_base_url (normalize_base_url s) = normalize_base_url s.
Proof.
  destruct (decide (Str.strip s = "")) as [He|Hne].
  - by rewrite (normalize_blank s He).
  - destruct (normalize_scheme_slash s Hne) as [Hscheme Hslash].
    by apply normalize_fixed.
Qed.

(** A scheme prefix written with a letter in another case is no scheme
    prefix for [startswith]. *)
Lemma other_case_scheme_unseen pre rest :
  Str.lower pre = "http://" \/ Str.lower pre = "https://" ->
  pre <> Str.lower pre ->
  Str.startswith (pre +:+ rest) "http://" = false
  /\ Str.startswith (pre +:+ rest) "https://" = false.
Proof.
  intros Hl Hne.
  pose proof (length_lower pre) as Hlen.
  split; apply not_true_is_false; intros H.
  - destruct Hl as [Hl|Hl]; rewrite Hl in Hlen, Hne.
    + by apply startswith_same_length in H.
    + apply startswith_lower in H. rewrite lower_app, Hl in H.
      by vm_compute in H.
  - destruct Hl as [Hl|Hl]; rewrite Hl in Hlen, Hne.
    + apply startswith_lower in H. rewrite lower_app, Hl in H.
      by vm_compute in H.
    + by apply startswith_same_length in H.
Qed.

(** C10: scheme detection is case-sensitive.  When the trimmed input opens
    with a scheme prefix in which some letter is not lower-case ("HTTP://",
    "Https://", ...), neither [startswith] test sees it and "http://" is put
    in front of it, so that the output carries two scheme prefixes.  When it
    opens with "http://" or "https://" in lower case, nothing is put in
    front. *)
Theorem C10_uppercase_scheme_doubled (s pre rest : string) :
  Str.strip s = pre +:+ rest ->
  (Str.lower pre = "http://" \/ Str.lower pre = "https://" ->
   pre <> Str.lower pre ->
   Str.startswith (Str.strip s) "http://" = false
   /\ Str.startswith (Str.strip s) "https://" = false
   /\ normalize_base_url s
      = "http://" +:+ pre +:+ rest
          +:+ (if Str.endswith (pre +:+ rest) "/" then "" else "/"))
  /\ (pre = "http://" \/ pre = "https://" ->
      normalize_base_url s
      = pre +:+ rest +:+ (if Str.endswith (pre +:+ rest) "/" then "" else "/")).
Proof.
  intros Hs. split.
  - intros Hl Hne.
    destruct (other_case_scheme_unseen pre rest Hl Hne) as [H1 H2].
    assert (Hne' : pre +:+ rest <> "").
    { destruct pre; [by destruct Hl | by rewrite app_cons]. }
    rewrite <- Hs in H1, H2, Hne'.
    split; [done|split; [done|]].
    rewrite (normalize_no_scheme s Hne' H1 H2), Hs.
    by rewrite str_app_assoc.
  - intros Hpre. unfold normalize_base_url. rewrite Hs.
    assert (Str.is_empty (pre +:+ rest) = false) as ->
      by (by destruct Hpre as [-> | ->]).
    assert (negb (Str.startswith (pre +:+ rest) "http://")
            && negb (Str.startswith (pre +:+ rest) "https://") = false) as ->.
    { destruct Hpre as [-> | ->]; rewrite startswith_app; [done|].
      apply andb_false_r. }
    destruct (Str.endswith (pre +:+ rest) "/"); cbn [negb].
    + by rewrite app_empty_r.
    + apply str_app_assoc.
Qed.

Lemma C10_uppercase_scheme_doubled_witness :
  (Str.startswith "HTTP://example.com" "http://" = false
   /\ Str.startswith "HTTP://example.com" "https://" = false
   /\ normalize_base_url "HTTP://example.com" = "http://HTTP://example.com/")
  /\ normalize_base_url " hTTps://example.com/a " = "http://hTTps://example.com/a/"
  /\ normalize_base_url "http://example.com" = "http://example.com/"
  /\ normalize_base_url "https://example.com" = "https://example.com/".
Proof.
  split; [|split; [|split]].
  - apply (C10_uppercase_scheme_doubled "HTTP://example.com" "HTTP://"
             "example.com"); [reflexivity | by left | done].
  - apply (C10_uppercase_scheme_doubled " hTTps://example.com/a " "hTTps://"
             "example.com/a"); [reflexivity | by right | done].
  - apply (C10_uppercase_scheme_doubled "http://example.com" "http://"
             "example.com"); [reflexivity | by left].
  - apply (C10_uppercase_scheme_doubled "https://example.com" "https://"
             "example.com"); [reflexivity | by right].
Defined.

(** ** The classifier and the response headers *)

(** C6: a 200 response typed "text/html; charset=utf-8" for
    "http://x/backup.zip" is skipped when it declares 1000 bytes, which is
    below 2 MiB, and matches when it declares 3 MiB. *)
Theorem C6_html_guard_example :
  1000 < 2 * 1024 * 1024
  /\ classify 200 "text/html; charset=utf-8" 1000 "http://x/backup.zip" = SkipHtml
  /\ classify 200 "text/html; charset=utf-8" (3 * 1024 * 1024) "http://x/backup.zip"
     = Match.
Proof. repeat split; reflexivity. Qed.

(** C7: a status other than 200 and 206 is never a match, whatever the
    content type, the declared length and the final URL. *)
Theorem C7_other_status_invalid (code : Z) (content_type : string)
    (content_length : Z) (final_url : string) :
  code <> 200 -> code <> 206 ->
  classify code content_type content_length final_url = Invalid.
Proof.
  intros H200 H206. unfold classify.
  apply Z.eqb_neq in H200 as ->. by apply Z.eqb_neq in H206 as ->.
Qed.

Lemma C7_other_status_invalid_witness :
  classify 404 "application/zip" (3 * 1024 * 1024) "http://x/backup.zip" = Invalid.
Proof. apply C7_other_status_invalid; lia. Defined.

(** An absent or empty Content-Length header reads as zero, and an HTML
    response read that way is never a match. *)
Lemma missing_length_is_zero :
  content_length_of None = Some 0 /\ content_length_of (Some "") = Some 0.
Proof. done. Qed.

Lemma html_of_length_zero_rejected code content_type final_url :
  Str.contains content_type "text/html" = true ->
  classify code content_type 0 final_url <> Match.
Proof.
  intros Hhtml. unfold classify. rewrite Hhtml.
  by destruct (_ && looks_like_backup _).
Qed.

(** C2: a Content-Length header that is present but not a number does not
    read as zero: [int] raises, the response is not classified, and the
    prober stops there, leaving the paths that follow untried. *)
Theorem C2_unparseable_length_raises :
  let resp := {| status_code := 200;
                 content_type_header := Some "text/html";
                 content_length_header := Some "abc";
                 url := "http://x/backup.zip";
                 saves := true |} in
  content_length_of (Some "abc") = None
  /\ classify_response resp = None
  /\ scan_single_target (plain_env (fun _ _ _ => Got resp)) 0 "x"
       "/srv/app/downloads" ["backup.zip"; "db.sql"]
     = UpdateTarget 0 (SetStatus Scanning)
         (LogLine (LogScanStart "http://x/")
            (LogLine (LogTest "http://x/backup.zip") Raise))
         Raise.
Proof. repeat split; reflexivity. Qed.

(** ** The worker count *)

Lemma resolve_max_workers_clamp threads_raw :
  resolve_max_workers threads_raw
  = Z.max 1 (Z.min 50 (default 5 (py_int (threads_text threads_raw)))).
Proof.
  unfold resolve_max_workers.
  destruct (Z.leb_spec (default 5 (py_int (threads_text threads_raw))) 0).
  - destruct (Z.gtb_spec 1 50); lia.
  - destruct (Z.gtb_spec (default 5 (py_int (threads_text threads_raw))) 50); lia.
Qed.

(** C3, as stated, fails: a request of 0 resolves to 1, not to 5. *)
Lemma C3_zero_resolves_to_one :
  py_int (threads_text (Some "0")) = Some 0
  /\ resolve_max_workers (Some "0") = 1
  /\ resolve_max_workers (Some "0") <> 5.
Proof. repeat split; done. Qed.

(** C3 (amended): the worker count always lies in [1, 50].  A request that
    is missing, empty or refused by [int] resolves to 5: text that is not a
    numeral, and also a numeral of more than 4300 digits.  A request [int]
    reads as a number resolves to 1 when the number is 0 or negative, to 50
    when it is above 50, and to the number itself otherwise. *)
Theorem C3_resolve_max_workers (threads_raw : option string) :
  1 <= resolve_max_workers threads_raw <= 50
  /\ (py_int (threads_text threads_raw) = None ->
      resolve_max_workers threads_raw = 5)
  /\ (forall n, py_int (threads_text threads_raw) = Some n ->
        (n <= 0 -> resolve_max_workers threads_raw = 1)
        /\ (1 <= n <= 50 -> resolve_max_workers threads_raw = n)
        /\ (50 < n -> resolve_max_workers threads_raw = 50))
  /\ resolve_max_workers None = 5
  /\ resolve_max_workers (Some "") = 5
  /\ resolve_max_workers (Some "abc") = 5
  /\ resolve_max_workers (Some "-3") = 1
  /\ resolve_max_workers (Some " 7 ") = 7
  /\ resolve_max_workers (Some "51") = 50
  /\ resolve_max_workers (Some (Str.repeat "0" 4299 +:+ "7")) = 7
  /\ resolve_max_workers (Some (Str.repeat "9" 4300)) = 50
  /\ py_int (Str.repeat "0" 4300 +:+ "7") = None
  /\ resolve_max_workers (Some (Str.repeat "0" 4300 +:+ "7")) = 5
  /\ resolve_max_workers (Some (Str.repeat "9" 4301)) = 5.
Proof.
  split; [|split; [|split; [|repeat split; by vm_compute]]];
    rewrite ?resolve_max_workers_clamp.
  - lia.
  - intros ->. done.
  - intros n ->. simpl. lia.
Qed.

(** ** De-duplication of the targets *)

Section Fromkeys.
Implicit Types (d l k : list string) (x : string).

Local Abbreviation step :=
  (fun (acc : list string) (key : string) =>
     if bool_decide (key ∈ acc) then acc else acc ++ [key]).

Lemma fromkeys_snoc l x :
  fromkeys (l ++ [x])
  = if bool_decide (x ∈ fromkeys l) then fromkeys l else fromkeys l ++ [x].
Proof. unfold fromkeys. by rewrite fold_left_app. Qed.


Lemma insert_keys_elem l d x :
  x ∈ fold_left step l d <-> x ∈ d \/ x ∈ l.
Proof.
  revert d; induction l as [|y l IH]; intros d; simpl.
  - rewrite elem_of_nil. tauto.
  - rewrite IH, elem_of_cons. case_bool_decide.
    + split; [tauto |]. intros [?|[->|?]]; tauto.
    + rewrite elem_of_app, list_elem_of_singleton. tauto.
Qed.



Lemma fromkeys_elem l x : x ∈ fromkeys l <-> x ∈ l.
Proof.
  unfold fromkeys. rewrite insert_keys_elem, elem_of_nil. tauto.
Qed.



End Fromkeys.

(** ** One prober *)

Section ProberFacts.
Context (E : env).
Implicit Types (ps : list string) (p : prog).





End ProberFacts.

(** ** Creating a task *)

Lemma start_scan_created task_id f t :
  start_scan task_id f = Created t ->
  exists raw_targets raw_paths,
    target_lines f = Some raw_targets
    /\ dictionary_lines f = Some raw_paths
    /\ fromkeys raw_targets <> []
    /\ t = new_task task_id (fromkeys raw_targets)
             (match raw_paths with [] => DEFAULT_PATHS | _ => raw_paths end)
             (resolve_max_workers (threads f)).
Proof.
  unfold start_scan.
  destruct (target_lines f) as [raw_targets|]; [|done].
  destruct (fromkeys raw_targets) eqn:Hkeys; [done |].
  destruct (dictionary_lines f) as [raw_paths|]; [|done].
  intros [= <-]. exists raw_targets, raw_paths. by rewrite Hkeys.
Qed.


(** ** Save paths *)

Section SavePaths.
Implicit Types (s t a b : string) (c : ascii).












End SavePaths.




(** ** Trimming *)

Section Strip.
Context (f : ascii -> bool).
Implicit Types (s : string) (c : ascii).

Lemma lstrip_by_head_kept s c r :
  Str.lstrip_by f s = String c r -> f c = false.
Proof.
  induction s as [|d s IH]; [done |]. cbn [Str.lstrip_by].
  destruct (f d) eqn:Hd; [done |]. by intros [= <- _].
Qed.

Lemma rstrip_by_head_kept s c :
  f c = false -> exists r, Str.rstrip_by f (String c s) = String c r.
Proof.
  intros Hc. cbn [Str.rstrip_by]. destruct (Str.rstrip_by f s); eauto.
  rewrite Hc. eauto.
Qed.

Lemma rstrip_by_idem s :
  Str.rstrip_by f (Str.rstrip_by f s) = Str.rstrip_by f s.
Proof.
  induction s as [|c s IH]; [done |]. cbn [Str.rstrip_by].
  destruct (Str.rstrip_by f s) as [|d r] eqn:Hr.
  - destruct (f c) eqn:Hc; [done |]. cbn [Str.rstrip_by]. by rewrite Hc.
  - cbn [Str.rstrip_by] in *. by rewrite IH.
Qed.

End Strip.

Lemma strip_idem s : Str.strip (Str.strip s) = Str.strip s.
Proof.
  unfold Str.strip.
  destruct (Str.lstrip_by Str.isspace s) as [|c r] eqn:Hl; [done |].
  destruct (rstrip_by_head_kept Str.isspace r c
              (lstrip_by_head_kept _ _ _ _ Hl)) as [r' Hr].
  rewrite Hr, lstrip_by_head by eauto using lstrip_by_head_kept.
  rewrite <- Hr. apply rstrip_by_idem.
Qed.

(** Lines and trimming. *)
Section Lines.
Implicit Types (s a b x y : string) (c : ascii) (f : ascii -> bool).













End Lines.

(** A target line that was kept gives a base URL. *)
Lemma normalize_kept_line l :
  Str.strip l <> "" -> Str.is_empty (normalize_base_url (Str.strip l)) = false.
Proof.
  intros Hl. apply is_empty_false. intros Hn.
  destruct (normalize_scheme_slash (Str.strip l)) as [_ Hslash];
    [by rewrite strip_idem |].
  by rewrite Hn in Hslash.
Qed.

Lemma kept_lines_elem g text x :
  x ∈ kept_lines g text -> exists l, x = g l /\ x <> "".
Proof.
  unfold kept_lines.
  intros [Hx (l & -> & _)%list_elem_of_fmap]%list_elem_of_filter.
  exists l. by apply is_empty_false in Hx.
Qed.

Lemma target_lines_elem f raw x :
  target_lines f = Some raw -> x ∈ raw ->
  Str.is_empty (normalize_base_url x) = false.
Proof.
  unfold target_lines, file_lines, text_lines, target_line.
  intros Hraw Hx.
  assert (exists text, x ∈ kept_lines Str.strip text) as [text Hk].
  { destruct (targets_file f); simplify_eq/=;
      apply elem_of_app in Hx as [Hx|Hx]; eauto.
    by apply elem_of_nil in Hx. }
  apply kept_lines_elem in Hk as (l & -> & Hne).
  by apply normalize_kept_line.
Qed.

(** ** The scan of a task *)

Section Scan.
Context (E : env).
Implicit Types (s : sys) (t : task) (p : prog) (ws : list prog).

Local Abbreviation count ws :=
  (Z.of_nat (length (filter (fun p => counted p = true) ws))).

Lemma uncounted_not_counted p : uncounted p = true -> counted p = false.
Proof. by destruct p. Qed.

Lemma uncounted_probe_paths i base tag out ps : forall pos fc,
  uncounted (probe_paths E i base tag out pos fc ps) = true.
Proof.
  induction ps as [|path rest IH]; intros pos fc; [done |].
  cbn [probe_paths]. repeat case_match; cbn [uncounted]; by rewrite ?IH.
Qed.

Lemma uncounted_scan_single_target i target out ps :
  Str.is_empty (normalize_base_url target) = false ->
  uncounted (scan_single_target E i target out ps) = true.
Proof.
  intros Hb. unfold scan_single_target. rewrite Hb. cbn [uncounted].
  rewrite andb_true_r.
  destruct (urlparse_netloc E _); [apply uncounted_probe_paths | done].
Qed.

(** The counters a critical section of a prober leaves behind. *)
Lemma prog_step_counters p t t' p' :
  prog_step p t = Some (t', p') ->
  counted p || uncounted p = true ->
  total_targets t' = total_targets t
  /\ done t' = done t
  /\ counted p' || uncounted p' = true
  /\ finished_targets t'
     = finished_targets t
       + (if counted p' then 1 else 0) - (if counted p then 1 else 0).
Proof.
  destruct p as [| |msg k|index u k h|base|base n total]; cbn [prog_step];
    try done.
  - intros [= <- <-]; cbn [counted uncounted orb]; intros Hk.
    rewrite Hk, (uncounted_not_counted _ Hk), orb_true_r.
    repeat split; simpl; lia.
  - cbn [counted uncounted orb]; intros Hstep [Hk Hh]%andb_true_iff.
    unfold update_target_status in Hstep. case_bool_decide.
    + injection Hstep as <- <-.
      rewrite Hk, (uncounted_not_counted _ Hk), orb_true_r.
      repeat split; simpl; lia.
    + injection Hstep as <- <-.
      rewrite Hh, (uncounted_not_counted _ Hh), orb_true_r.
      repeat split; simpl; lia.
  - intros [= <- <-] _. repeat split; simpl; lia.
  - intros [= <- <-] _. repeat split; simpl; lia.
Qed.

Lemma count_insert ws i p p' :
  ws !! i = Some p ->
  count (<[i := p']> ws)
  = count ws + (if counted p' then 1 else 0) - (if counted p then 1 else 0).
Proof.
  intros Hi.
  rewrite <- (take_drop_middle ws i p Hi) at 2.
  rewrite insert_take_drop by (by eapply lookup_lt_Some).
  rewrite !filter_app, !filter_cons, !length_app.
  destruct (counted p), (counted p');
    repeat case_decide; try done; cbn [length]; lia.
Qed.

Lemma worker_step_inv i s s' :
  worker_step i s = Some s' -> sys_inv s -> sys_inv s'.
Proof.
  unfold worker_step. intros Hstep [Htot Hfin Hws Hdone Hclosed].
  destruct (pool_open (main s)) eqn:Hopen; [|done].
  destruct (workers s !! i) as [p|] eqn:Hi; [|done]. cbn in Hstep.
  destruct (prog_step p (shared s)) as [[t' p']|] eqn:Hp; [|done].
  injection Hstep as <-.
  destruct (prog_step_counters _ _ _ _ Hp) as (Ht & Hd & Hp' & Hf).
  { by eapply Forall_lookup_1 in Hws. }
  split; cbn [shared workers main].
  - by rewrite length_insert, Ht.
  - rewrite (count_insert _ _ _ _ Hi), Hf, Hfin. lia.
  - by apply Forall_insert.
  - by rewrite Hd.
  - intros Hc. by destruct (main s).
Qed.

Lemma main_step_inv s s' :
  main_step E s = Some s' -> sys_inv s -> sys_inv s'.
Proof.
  unfold main_step. intros Hstep [Htot Hfin Hws Hdone Hclosed].
  assert (forall o, main s = o -> o <> Stopped -> done (shared s) = false)
    as Hrunning.
  { intros o Ho Hne. destruct (done (shared s)); [|done].
    by rewrite Hdone in Ho. }
  destruct (main s) eqn:Hmain;
    try specialize (Hrunning _ eq_refl ltac:(done)); try done.
  - injection Hstep as <-. split; cbn [shared workers main]; try done.
    cbn [done log_line]. by rewrite Hrunning.
  - injection Hstep as <-. split; cbn [shared workers main]; try done.
    cbn [done log_line]. by rewrite Hrunning.
  - destruct (workers s !! i) as [[]|] eqn:Hi; try done.
    + injection Hstep as <-. split; cbn [shared workers main]; try done.
      by rewrite Hrunning.
    + injection Hstep as <-. split; cbn [shared workers main]; try done.
      cbn [done log_line]. by rewrite Hrunning.
    + destruct (forallb terminated (workers s)) eqn:Hall; [|done].
      injection Hstep as <-. split; cbn [shared workers main]; try done.
      * by rewrite Hrunning.
      * intros _. apply Forall_forall. intros p Hp.
        apply (proj1 (forallb_forall _ _) Hall). by apply list_elem_of_In.
  - injection Hstep as <-. split; cbn [shared workers main]; try done.
    cbn [done log_line]. by rewrite Hrunning.
  - injection Hstep as <-. split; cbn [shared workers main]; try done.
    cbn [done log_line]. by rewrite Hrunning.
  - injection Hstep as <-. split; cbn [shared workers main]; done.
Qed.

Lemma run_inv sched : forall s s',
  run E sched s = Some s' -> sys_inv s -> sys_inv s'.
Proof.
  induction sched as [|c rest IH]; intros s s'; cbn [run].
  - by intros [= <-].
  - destruct (sys_step E c s) as [s1|] eqn:Hc; [|done].
    intros Hrun Hs. apply (IH s1 s' Hrun).
    destruct c; cbn [sys_step] in Hc;
      eauto using main_step_inv, worker_step_inv.
Qed.

(** A task as [start_scan] creates it, handed to [scan_worker]. *)
Lemma scan_worker_inv task_id f t :
  start_scan task_id f = Created t -> sys_inv (scan_worker E t).
Proof.
  intros (raw_targets & raw_paths & Ht & _ & _ & ->)%start_scan_created.
  assert (Forall (fun p => uncounted p = true)
            (submitted E (new_task task_id (fromkeys raw_targets)
               (match raw_paths with [] => DEFAULT_PATHS | _ => raw_paths end)
               (resolve_max_workers (threads f))))) as Hun.
  { apply Forall_lookup_2. intros i p. unfold submitted.
    rewrite list_lookup_imap. cbn [targets new_task].
    rewrite list_lookup_fmap.
    destruct (fromkeys raw_targets !! i) as [x|] eqn:Hx; [|done].
    intros [= <-]. apply uncounted_scan_single_target. cbn [name].
    apply (target_lines_elem f raw_targets x Ht).
    apply fromkeys_elem. by eapply list_elem_of_lookup_2. }
  split; cbn [scan_worker shared workers main]; try done.
  - unfold submitted. cbn [targets new_task].
    by rewrite length_imap, length_map.
  - cbn [finished_targets new_task].
    induction Hun as [|p ws Hp _ IH]; [done |].
    rewrite filter_cons, decide_False; [done |].
    by rewrite (uncounted_not_counted _ Hp).
  - eapply Forall_impl; [exact Hun |]. intros p ->. apply orb_true_r.
Qed.

(** At every moment of a scan, [finished_targets] is at most
    [total_targets]. *)
Lemma finished_le_total s :
  sys_inv s -> 0 <= finished_targets (shared s) <= total_targets (shared s).
Proof.
  intros [Htot Hfin _ _ _]. rewrite Htot, Hfin.
  pose proof (length_filter (fun p => counted p = true) (workers s)). lia.
Qed.

(** When [done] is set every prober has ended, and the ones that returned
    are the ones that were counted. *)
Lemma done_counts s :
  sys_inv s -> done (shared s) = true ->
  Forall (fun p => terminated p = true) (workers s)
  /\ finished_targets (shared s)
     = Z.of_nat (length (filter (fun p => returned p = true) (workers s)))
  /\ total_targets (shared s)
     = finished_targets (shared s)
       + Z.of_nat (length (filter (fun p => raised p = true) (workers s))).
Proof.
  intros [Htot Hfin Hws Hdone Hclosed] Hd.
  assert (Forall (fun p => terminated p = true) (workers s)) as Hterm.
  { apply Hclosed. by rewrite (Hdone Hd). }
  split; [done |]. rewrite Htot, Hfin. clear -Hterm.
  induction Hterm as [|p ws Hp _ [IH1 IH2]]; [done |].
  rewrite !filter_cons.
  destruct p; try done; cbn [counted returned raised];
    repeat case_decide; try done; cbn [length]; lia.
Qed.

End Scan.

Lemma filter_none_length {A} (P : A -> Prop) `{!forall x, Decision (P x)}
    (l : list A) :
  length (filter P l) = 0%nat <-> Forall (fun x => ~ P x) l.
Proof.
  induction l as [|x l IH]; [by rewrite Forall_nil |].
  rewrite filter_cons, Forall_cons. case_decide; cbn [length]; [|tauto].
  split; [done | tauto].
Qed.

(** C1, as stated, fails: a target whose only response carries the
    Content-Length "abc" ends its prober by an exception; the orchestrator
    logs it and sets [done], with [finished_targets] at 0 of 1 and the target
    still marked as scanning. *)
Lemma C1_done_with_unfinished_target :
  let f := {| targets_text := Some "a.example"; targets_file := NoFile;
              dict_text := Some "x.bak"; dict_file := NoFile;
              threads := None |} in
  let t := new_task "t1" ["a.example"] ["x.bak"] 5 in
  let E := plain_env (fun _ _ u =>
             Got {| status_code := 200;
                    content_type_header := Some "application/zip";
                    content_length_header := Some "abc";
                    url := u; saves := true |}) in
  let sched := [RunMain; RunMain; RunWorker 0; RunWorker 0; RunWorker 0;
                RunMain; RunMain; RunMain; RunMain; RunMain] in
  start_scan "t1" f = Created t
  /\ (progress ∘ shared <$> run E sched (scan_worker E t))
     = Some (true,
             [LogTaskStart 1 1 1; LogDownloadDir "/srv/app/downloads";
              LogScanStart "http://a.example/";
              LogTest "http://a.example/x.bak";
              LogThreadError; LogTraceback; LogAllDone],
             [{| name := "a.example"; status := Scanning; found := 0 |}],
             1, 0)
  /\ (workers <$> run E sched (scan_worker E t)) = Some [Raise].
Proof. repeat split; reflexivity. Qed.

(** A prober ended by another exception is not counted either: for the
    target "[::1" the call of [urlparse] raises before the first request. *)
Lemma malformed_target_never_counted :
  let t := new_task "t1" ["[::1"] ["x.bak"] 5 in
  let E := plain_env (fun _ _ _ => RequestError) in
  let sched := [RunMain; RunMain; RunWorker 0; RunWorker 0;
                RunMain; RunMain; RunMain; RunMain; RunMain] in
  (progress ∘ shared <$> run E sched (scan_worker E t))
  = Some (true,
          [LogTaskStart 1 1 1; LogDownloadDir "/srv/app/downloads";
           LogScanStart "http://[::1/";
           LogThreadError; LogTraceback; LogAllDone],
          [{| name := "[::1"; status := Scanning; found := 0 |}],
          1, 0).
Proof. reflexivity. Qed.

(** C1 (amended): when [done] is true every submitted prober has ended, and
    [finished_targets] is the number of probers that returned:
    [total_targets] less the number of probers ended by an exception.  It
    equals [total_targets] exactly when no prober raised. *)
Theorem C1_done_counts_returned_probers (E : env) (task_id : string) (f : form)
    (t : task) (sched : list choice) (s : sys) :
  start_scan task_id f = Created t ->
  run E sched (scan_worker E t) = Some s ->
  done (shared s) = true ->
  Forall (fun p => terminated p = true) (workers s)
  /\ finished_targets (shared s)
     = Z.of_nat (length (filter (fun p => returned p = true) (workers s)))
  /\ total_targets (shared s)
     = finished_targets (shared s)
       + Z.of_nat (length (filter (fun p => raised p = true) (workers s)))
  /\ (finished_targets (shared s) = total_targets (shared s)
      <-> Forall (fun p => raised p = false) (workers s)).
Proof.
  intros Hstart Hrun Hdone.
  pose proof (run_inv E sched _ _ Hrun (scan_worker_inv E _ _ _ Hstart)) as Hinv.
  destruct (done_counts s Hinv Hdone) as (Hterm & Hfin & Htot).
  split; [done |]. split; [done |]. split; [done |].
  rewrite Htot.
  transitivity (length (filter (fun p => raised p = true) (workers s)) = 0%nat);
    [lia |].
  rewrite filter_none_length. apply Forall_proper; [|done].
  intros p. by destruct (raised p).
Qed.

Lemma C1_done_counts_returned_probers_witness :
  let f := {| targets_text := Some "a.example"; targets_file := NoFile;
              dict_text := Some "x.bak"; dict_file := NoFile;
              threads := None |} in
  let t := new_task "t1" ["a.example"] ["x.bak"] 5 in
  let E := plain_env (fun _ _ u =>
             Got {| status_code := 200;
                    content_type_header := Some "application/octet-stream";
                    content_length_header := Some "100";
                    url := u; saves := true |}) in
  let s := {| shared :=
                {| id := "t1";
                   logs := [LogTaskStart 1 1 1;
                            LogDownloadDir "/srv/app/downloads";
                            LogScanStart "http://a.example/";
                            LogTest "http://a.example/x.bak";
                            LogFound "http://a.example/x.bak";
                            LogSavedTo "/srv/app/downloads/a.example/a.example_x.bak";
                            LogTargetDone "http://a.example/" 1 1; LogAllDone];
                   targets := [{| name := "a.example"; status := Done; found := 1 |}];
                   total_targets := 1; finished_targets := 1;
                   paths := ["x.bak"]; max_workers := 5; done := true |};
              workers := [Return]; main := Stopped |} in
  Forall (fun p => terminated p = true) (workers s)
  /\ finished_targets (shared s)
     = Z.of_nat (length (filter (fun p => returned p = true) (workers s)))
  /\ total_targets (shared s)
     = finished_targets (shared s)
       + Z.of_nat (length (filter (fun p => raised p = true) (workers s)))
  /\ (finished_targets (shared s) = total_targets (shared s)
      <-> Forall (fun p => raised p = false) (workers s)).
Proof.
  intros f t E s.
  apply (C1_done_counts_returned_probers E "t1" f t
           ([RunMain; RunMain] ++ replicate 9 (RunWorker 0) ++ replicate 4 RunMain) s);
    reflexivity.
Defined.

(** * Further properties of the code *)

(** ** [normalize_base_url] *)

(** An input that carries a scheme keeps it: the output is the trimmed input,
    with a slash appended when it does not end in one.  "https://" is never
    turned into "http://", nor the other way round. *)
Theorem normalize_keeps_scheme (s : string) :
  Str.startswith (Str.strip s) "http://" = true
  \/ Str.startswith (Str.strip s) "https://" = true ->
  normalize_base_url s
  = Str.strip s +:+ (if Str.endswith (Str.strip s) "/" then "" else "/").
Proof.
  intros Hscheme. unfold normalize_base_url.
  assert (Str.is_empty (Str.strip s) = false) as ->.
  { destruct (Str.strip s); [by destruct Hscheme | done]. }
  assert (negb (Str.startswith (Str.strip s) "http://")
          && negb (Str.startswith (Str.strip s) "https://") = false) as ->.
  { destruct Hscheme as [-> | ->]; by rewrite ?andb_false_r. }
  destruct (Str.endswith (Str.strip s) "/"); cbn [negb]; [|done].
  by rewrite app_empty_r.
Qed.

Lemma normalize_keeps_scheme_witness :
  normalize_base_url "  https://example.com/app "
  = Str.strip "  https://example.com/app "
    +:+ (if Str.endswith (Str.strip "  https://example.com/app ") "/"
         then "" else "/").
Proof. apply normalize_keeps_scheme. right. reflexivity. Defined.

(** The output is empty exactly for an input that is empty once trimmed;
    every other input gives a URL. *)
Theorem normalize_empty_iff (s : string) :
  normalize_base_url s = "" <-> Str.strip s = "".
Proof.
  split; [|apply normalize_blank].
  intros Hn. destruct (decide (Str.strip s = "")) as [|Hne]; [done |].
  destruct (normalize_scheme_slash s Hne) as [_ Hslash].
  by rewrite Hn in Hslash.
Qed.

(** ** [looks_like_backup] *)

Lemma endswith_spec s p : Str.endswith s p = true <-> exists t, s = t +:+ p.
Proof.
  split; [|intros [t ->]; apply endswith_app].
  induction s as [|c s IH].
  - intros ->%endswith_empty_l. by exists "".
  - rewrite endswith_cons. intros [Heq|Hs]%orb_true_iff.
    + apply String.eqb_eq in Heq as <-. by exists "".
    + destruct (IH Hs) as [t ->]. by exists (String c t).
Qed.

(** A URL looks like a backup exactly when, lower-cased, it ends with one of
    the configured suffixes; so a suffix is accepted in any letter case, and
    only at the very end of the URL. *)
Theorem looks_like_backup_iff (u : string) :
  (looks_like_backup u = true
   <-> exists pre suf, suf ∈ BACKUP_SUFFIXES /\ Str.lower u = pre +:+ suf)
  /\ (forall pre suf,
        Str.lower suf ∈ BACKUP_SUFFIXES -> looks_like_backup (pre +:+ suf) = true).
Proof.
  assert (forall v, looks_like_backup v = true
            <-> exists pre suf, suf ∈ BACKUP_SUFFIXES /\ Str.lower v = pre +:+ suf)
    as Hiff.
  { intros v. unfold looks_like_backup. rewrite existsb_exists. split.
    - intros (suf & Hin & (pre & Hpre)%endswith_spec).
      exists pre, suf. by rewrite list_elem_of_In.
    - intros (pre & suf & Hin & Hpre). exists suf. rewrite <- list_elem_of_In.
      split; [done |]. apply endswith_spec. eauto. }
  split; [apply Hiff |].
  intros pre suf Hsuf. apply Hiff.
  exists (Str.lower pre), (Str.lower suf). by rewrite lower_app.
Qed.

(** ** [scan_single_target] *)

Lemma classify_match_inv code content_type content_length final_url :
  classify code content_type content_length final_url = Match ->
  (code = 200 \/ code = 206)
  /\ looks_like_backup final_url = true
  /\ (Str.contains content_type "text/html" = true ->
      2 * 1024 * 1024 <= content_length).
Proof.
  unfold classify.
  destruct (code =? 200) eqn:H200; destruct (code =? 206) eqn:H206;
    destruct (looks_like_backup final_url); cbn [orb andb]; try done;
    destruct (Str.contains content_type "text/html"); cbn [andb];
    destruct (Z.ltb_spec content_length (2 * 1024 * 1024)); try done;
    intros _; (split; [|split; [done | intros; lia || done]]);
    first [left; by apply Z.eqb_eq | right; by apply Z.eqb_eq].
Qed.

Section ProberRuns.
Context (E : env).
Implicit Types (ps : list string) (p : prog) (t : task).

(** The successor of a position, as the loop and as the list count it. *)
Lemma lookup_cons_pos {A} (x : A) (l : list A) (P : nat -> A -> Prop) pos :
  (forall k y, (x :: l) !! k = Some y -> P (pos + k)%nat y)
  <-> P pos x /\ (forall k y, l !! k = Some y -> P (S pos + k)%nat y).
Proof.
  split.
  - intros H. split.
    + specialize (H 0%nat x eq_refl). by rewrite Nat.add_0_r in H.
    + intros k y Hk. specialize (H (S k) y Hk).
      by rewrite Nat.add_succ_r in H.
  - intros [H0 HS] [|k] y Hk.
    + injection Hk as <-. by rewrite Nat.add_0_r.
    + rewrite Nat.add_succ_r. by apply HS.
Qed.

Lemma saved_probe_paths_match i base tag out ps file : forall pos fc,
  file ∈ saved (probe_paths E i base tag out pos fc ps) ->
  exists k path full_url resp,
    ps !! k = Some path
    /\ urljoin E base path = Some full_url
    /\ session_get E i (pos + k) full_url = Got resp
    /\ classify_response resp = Some Match
    /\ file = save_path out tag (url resp).
Proof.
  induction ps as [|path rest IH]; intros pos fc Hin.
  - by apply elem_of_nil in Hin.
  - assert (forall fc', file ∈ saved (probe_paths E i base tag out (S pos) fc' rest) ->
              exists k path' full_url resp,
                (path :: rest) !! k = Some path'
                /\ urljoin E base path' = Some full_url
                /\ session_get E i (pos + k) full_url = Got resp
                /\ classify_response resp = Some Match
                /\ file = save_path out tag (url resp)) as Hnext.
    { intros fc' (k & path' & full_url & resp & Hk & ?)%IH.
      exists (S k), path', full_url, resp. by rewrite Nat.add_succ_r. }
    cbn [probe_paths] in Hin.
    destruct (urljoin E base path) as [full_url|] eqn:Hjoin;
      [|by apply elem_of_nil in Hin].
    cbn [saved] in Hin.
    destruct (session_get E i pos full_url) as [| |resp] eqn:Hget; cbn [saved] in Hin;
      [eauto | by apply elem_of_nil in Hin |].
    destruct (content_length_of (content_length_header resp)) as [len|] eqn:Hlen;
      [|by apply elem_of_nil in Hin].
    destruct (classify _ _ len (url resp)) eqn:Hcls; cbn [saved] in Hin; eauto.
    apply elem_of_cons in Hin as [-> | Hin].
    + exists 0%nat, path, full_url, resp. rewrite Nat.add_0_r.
      repeat split; try done. unfold classify_response.
      rewrite Hlen. simpl. by rewrite Hcls.
    + destruct (saves resp); cbn [saved] in Hin; eauto.
Qed.

(** Every file a prober writes to belongs to a response of its own that was
    classified as a match: status 200 or 206 and a final URL with a backup
    suffix.  Nothing else is ever saved. *)
Theorem saved_only_matches (i : nat) (target out : string) (ps : list string)
    (file : string) :
  file ∈ saved (scan_single_target E i target out ps) ->
  exists k path full_url resp netloc,
    ps !! k = Some path
    /\ urljoin E (normalize_base_url target) path = Some full_url
    /\ session_get E i k full_url = Got resp
    /\ classify_response resp = Some Match
    /\ (status_code resp = 200 \/ status_code resp = 206)
    /\ looks_like_backup (url resp) = true
    /\ urlparse_netloc E (normalize_base_url target) = Some netloc
    /\ file = save_path out (host_tag_of netloc) (url resp).
Proof.
  unfold scan_single_target.
  destruct (Str.is_empty _); [by intros ?%elem_of_nil |]. cbn [saved].
  destruct (urlparse_netloc E _) as [netloc|]; [|by intros ?%elem_of_nil].
  intros (k & path & full_url & resp & Hk & Hjoin & Hget & Hcls & ->)
    %saved_probe_paths_match.
  exists k, path, full_url, resp, netloc. repeat split; try done.
  - unfold classify_response in Hcls.
    destruct (content_length_of _) as [len|]; [|done]. simpl in Hcls.
    injection Hcls as Hcls. by apply classify_match_inv in Hcls as [? _].
  - unfold classify_response in Hcls.
    destruct (content_length_of _) as [len|]; [|done]. simpl in Hcls.
    injection Hcls as Hcls. by apply classify_match_inv in Hcls as (_ & ? & _).
Qed.

End ProberRuns.

Lemma saved_only_matches_witness :
  let E := plain_env (fun _ _ u =>
             Got {| status_code := 206;
                    content_type_header := Some "application/zip";
                    content_length_header := None;
                    url := u; saves := false |}) in
  exists k path full_url resp netloc,
    ["site.ZIP"] !! k = Some path
    /\ urljoin E (normalize_base_url "a.example") path = Some full_url
    /\ session_get E 0 k full_url = Got resp
    /\ classify_response resp = Some Match
    /\ (status_code resp = 200 \/ status_code resp = 206)
    /\ looks_like_backup (url resp) = true
    /\ urlparse_netloc E (normalize_base_url "a.example") = Some netloc
    /\ "/srv/app/downloads/a.example/a.example_site.ZIP"
       = save_path "/srv/app/downloads" (host_tag_of netloc) (url resp).
Proof.
  intros E.
  apply (saved_only_matches E 0 "a.example" "/srv/app/downloads" ["site.ZIP"]).
  apply list_elem_of_here.
Defined.

Section ProberEnds.
Context (E : env).
Implicit Types (ps : list string) (p : prog) (t : task).

Lemma completes_probe_paths i base tag out ps : forall pos fc,
  completes (probe_paths E i base tag out pos fc ps) = true
  <-> forall k path, ps !! k = Some path -> attempt_ok E i (pos + k) base path = true.
Proof.
  induction ps as [|path rest IH]; intros pos fc.
  - split; [intros _ k path Hk; by rewrite lookup_nil in Hk | done].
  - rewrite (lookup_cons_pos path rest
               (fun n y => attempt_ok E i n base y = true) pos).
    cbn [probe_paths]. unfold attempt_ok at 1.
    destruct (urljoin E base path) as [full_url|]; [|by intuition].
    cbn [completes].
    destruct (session_get E i pos full_url) as [| |resp]; cbn [completes];
      [rewrite IH; tauto | by intuition |].
    destruct (content_length_of (content_length_header resp)) as [len|];
      [|by intuition].
    destruct (classify _ _ len (url resp)); cbn [completes];
      try (rewrite IH; tauto).
    destruct (saves resp); cbn [completes]; rewrite IH; tauto.
Qed.

(** What lets a prober through to the increment of [finished_targets]: its
    target is not blank, [urlparse] accepts the base URL and every attempt
    gets past its unguarded lines. *)
Lemma completes_scan_single_target (i : nat) (target out : string) (ps : list string) :
  completes (scan_single_target E i target out ps) = true
  <-> normalize_base_url target <> ""
      /\ is_Some (urlparse_netloc E (normalize_base_url target))
      /\ forall k path, ps !! k = Some path ->
           attempt_ok E i k (normalize_base_url target) path = true.
Proof.
  unfold scan_single_target.
  destruct (Str.is_empty _) eqn:Hempty.
  - apply is_empty_true in Hempty. cbn [completes]. by intuition.
  - apply is_empty_false in Hempty. cbn [completes].
    destruct (urlparse_netloc E _) as [netloc|] eqn:Hnetloc.
    + rewrite completes_probe_paths. cbn [Nat.add].
      split; [by intuition eauto | tauto].
    + cbn [completes]. split; [done |]. by intros (_ & [? ?] & _).
Qed.

Lemma tested_probe_paths_lookup i base tag out ps : forall pos fc k full_url,
  tested (probe_paths E i base tag out pos fc ps) !! k = Some full_url ->
  exists path, ps !! k = Some path /\ urljoin E base path = Some full_url.
Proof.
  induction ps as [|path rest IH]; intros pos fc k full_url Hk; [done |].
  cbn [probe_paths] in Hk.
  destruct (urljoin E base path) as [u|] eqn:Hjoin; [|done].
  cbn [tested] in Hk. destruct k as [|k].
  { injection Hk as <-. eauto. }
  cbn [lookup list_lookup] in Hk.
  assert (forall fc', tested (probe_paths E i base tag out (S pos) fc' rest) !! k
                      = Some full_url ->
            exists path', (path :: rest) !! S k = Some path'
                          /\ urljoin E base path' = Some full_url) as Hnext.
  { intros fc' Hk'. by apply IH in Hk'. }
  destruct (session_get E i pos u) as [| |resp]; cbn [tested] in Hk;
    [eauto | done |].
  destruct (content_length_of (content_length_header resp)) as [len|];
    [|done].
  destruct (classify _ _ len (url resp)); cbn [tested] in Hk; eauto.
  destruct (saves resp); cbn [tested] in Hk; eauto.
Qed.

(** The requests of a prober follow the path list: its k-th request, if it
    gets that far, is the join of the base URL with the k-th entry.  No entry
    is skipped, repeated or reordered, whether the scan is cut short or
    not. *)
Theorem tested_in_dictionary_order (i : nat) (target out : string)
    (ps : list string) (k : nat) (full_url : string) :
  tested (scan_single_target E i target out ps) !! k = Some full_url ->
  exists path,
    ps !! k = Some path
    /\ urljoin E (normalize_base_url target) path = Some full_url.
Proof.
  unfold scan_single_target.
  destruct (Str.is_empty _); [done |]. cbn [tested].
  destruct (urlparse_netloc E _); [|done].
  apply tested_probe_paths_lookup.
Qed.

End ProberEnds.

Lemma tested_in_dictionary_order_witness :
  exists path,
    ["a.zip"; "b.sql"; "c.bak"] !! 1%nat = Some path
    /\ urljoin (plain_env (fun _ k _ => if decide (k = 2%nat) then OtherError
                                        else RequestError))
         (normalize_base_url "a.example") path
       = Some "http://a.example/b.sql".
Proof.
  apply (tested_in_dictionary_order
           (plain_env (fun _ k _ => if decide (k = 2%nat) then OtherError
                                    else RequestError))
           0 "a.example" "/srv/app/downloads" ["a.zip"; "b.sql"; "c.bak"] 1).
  reflexivity.
Defined.

(** ** A prober run on its own *)

(** [exec] takes the critical sections of [prog_step] one after the other,
    down to a prober that has ended. *)
Lemma exec_step p t t' p' :
  prog_step p t = Some (t', p') -> exec p t = exec p' t'.
Proof.
  destruct p; cbn [prog_step exec]; try done.
  - by intros [= <- <-].
  - destruct (update_target_status t index u); by intros [= <- <-].
  - by intros [= <- <-].
  - by intros [= <- <-].
Qed.

Lemma exec_terminated p t : terminated (snd (exec p t)) = true.
Proof.
  revert t; induction p; intros t; cbn [exec]; try done.
  destruct (update_target_status t index u); auto.
Qed.

Lemma update_target_status_found t i u ts :
  targets t !! i = Some ts ->
  exists t',
    update_target_status t i u = Some t'
    /\ targets t' !! i = Some (apply_update u ts)
    /\ (forall j, j <> i -> targets t' !! j = targets t !! j)
    /\ finished_targets t' = finished_targets t.
Proof.
  intros Hi. unfold update_target_status.
  rewrite bool_decide_eq_true_2 by (by eapply lookup_lt_Some).
  eexists. split; [done |]. cbn [targets finished_targets].
  split; [by rewrite list_lookup_alter_eq, Hi |].
  split; [|done]. intros j Hj. by rewrite list_lookup_alter_ne.
Qed.

Section ProberAlone.
Context (E : env).
Implicit Types (ps : list string) (p : prog) (t : task).

Lemma persisted_nonneg i base ps : forall pos, 0 <= persisted E i pos base ps.
Proof.
  induction ps as [|path rest IH]; intros pos; cbn [persisted]; [done |].
  specialize (IH (S pos)). destruct (persists E i pos base path); lia.
Qed.

(* the induction hypothesis, at the task the log lines have led to *)
Local Ltac by_IH :=
  match goal with
  | IH : forall pos fc t ts, _, Hi : targets _ !! _ = Some ?ts,
    Hc : completes (probe_paths _ _ _ _ _ ?pos ?fc _) = true
    |- context [exec _ ?t1] =>
      destruct (IH pos fc t1 ts Hi Hc) as (? & ? & ? & ?);
      repeat split; assumption
  end.

Lemma exec_probe_paths_completed i base tag out ps : forall pos fc t ts,
  targets t !! i = Some ts ->
  completes (probe_paths E i base tag out pos fc ps) = true ->
  snd (exec (probe_paths E i base tag out pos fc ps) t) = Return
  /\ finished_targets (fst (exec (probe_paths E i base tag out pos fc ps) t))
     = finished_targets t + 1
  /\ targets (fst (exec (probe_paths E i base tag out pos fc ps) t)) !! i
     = Some {| name := name ts; status := Done;
               found := if persisted E i pos base ps =? 0 then found ts
                        else fc + persisted E i pos base ps |}
  /\ (forall j, j <> i ->
        targets (fst (exec (probe_paths E i base tag out pos fc ps) t)) !! j
        = targets t !! j).
Proof.
  induction ps as [|path rest IH]; intros pos fc t ts Hi Hc.
  - cbn [probe_paths exec persisted].
    destruct (update_target_status_found t i (SetStatus Done) ts Hi)
      as (t' & -> & Hi' & Hother & Hfin).
    cbn [exec fst snd targets finished_targets log_line incr_finished].
    rewrite Hfin. by repeat split.
  - cbn [probe_paths persisted] in *. unfold persists, classify_response.
    pose proof (persisted_nonneg i base rest (S pos)) as Hnn.
    destruct (urljoin E base path) as [full_url|]; [|done].
    cbn [completes exec] in *.
    destruct (session_get E i pos full_url) as [| |resp]; [| done |].
    { cbn [completes exec] in *. rewrite Z.add_0_l. by_IH. }
    destruct (content_length_of (content_length_header resp)) as [len|];
      [|done].
    simpl mbind.
    destruct (classify _ _ len (url resp)); cbn [completes exec] in *.
    + destruct (saves resp); cbn [completes exec] in *.
      * destruct (update_target_status_found
                    (log_line (log_line (log_line t (LogTest full_url))
                                 (LogFound (url resp)))
                       (LogSavedTo (save_path out tag (url resp))))
                    i (SetFound (fc + 1)) ts Hi)
          as (t' & -> & Hi' & Hother & Hfin).
        destruct (IH (S pos) (fc + 1) t' _ Hi' Hc) as (Hret & Hf & Hts & Hrest).
        split; [done |]. split; [by rewrite Hf, Hfin |].
        split.
        -- rewrite Hts. cbn [apply_update name status found]. f_equal. f_equal.
           destruct (Z.eqb_spec (persisted E i (S pos) base rest) 0),
             (Z.eqb_spec (1 + persisted E i (S pos) base rest) 0); lia.
        -- intros j Hj. by rewrite Hrest, Hother.
      * rewrite Z.add_0_l. by_IH.
    + rewrite Z.add_0_l. by_IH.
    + rewrite Z.add_0_l. by_IH.
Qed.

(** Run on its own on a target of the task, a prober that is not cut short
    returns with its target marked done, [finished_targets] raised by one and
    every other target untouched; the found count it leaves is the number of
    responses it wrote to disk (and the count it met, when it wrote none). *)
Theorem exec_completed_target (i : nat) (target out : string) (ps : list string)
    (t : task) (ts : target_status) :
  targets t !! i = Some ts ->
  completes (scan_single_target E i target out ps) = true ->
  snd (exec (scan_single_target E i target out ps) t) = Return
  /\ finished_targets (fst (exec (scan_single_target E i target out ps) t))
     = finished_targets t + 1
  /\ targets (fst (exec (scan_single_target E i target out ps) t)) !! i
     = Some {| name := name ts; status := Done;
               found :=
                 if persisted E i 0 (normalize_base_url target) ps =? 0
                 then found ts
                 else persisted E i 0 (normalize_base_url target) ps |}
  /\ (forall j, j <> i ->
        targets (fst (exec (scan_single_target E i target out ps) t)) !! j
        = targets t !! j).
Proof.
  intros Hi. unfold scan_single_target.
  destruct (Str.is_empty _); [done |]. cbn [completes exec].
  destruct (update_target_status_found t i (SetStatus Scanning) ts Hi)
    as (t' & -> & Hi' & Hother & Hfin).
  destruct (urlparse_netloc E _) as [netloc|]; [|done]. intros Hc.
  assert (targets (log_line t' (LogScanStart (normalize_base_url target))) !! i
          = Some (apply_update (SetStatus Scanning) ts)) as Hi'' by done.
  destruct (exec_probe_paths_completed i _ (host_tag_of netloc) out ps 0%nat 0
              _ _ Hi'' Hc) as (Hret & Hf & Hts & Hrest).
  split; [done |]. split; [rewrite Hf; cbn [finished_targets log_line]; lia |].
  split; [by rewrite Hts |].
  intros j Hj. rewrite (Hrest j Hj). cbn [targets log_line]. by apply Hother.
Qed.

End ProberAlone.

Lemma exec_completed_target_witness :
  let E := plain_env (fun _ k u =>
             if decide (k = 1%nat) then RequestError
             else Got {| status_code := 200;
                         content_type_header := Some "application/octet-stream";
                         content_length_header := Some "100";
                         url := u; saves := true |}) in
  let t := new_task "t1" ["a.example"; "b.example"]
             ["x.bak"; "y.zip"; "z.sql"] 5 in
  let r := exec (scan_single_target E 0 "a.example" (DOWNLOAD_DIR E) (paths t)) t in
  snd r = Return
  /\ finished_targets (fst r) = 1
  /\ targets (fst r) !! 0%nat
     = Some {| name := "a.example"; status := Done; found := 2 |}
  /\ (forall j, j <> 0%nat -> targets (fst r) !! j = targets t !! j).
Proof.
  intros E t r.
  exact (exec_completed_target E 0 "a.example" (DOWNLOAD_DIR E) (paths t) t
           {| name := "a.example"; status := Pending; found := 0 |}
           eq_refl eq_refl).
Defined.

Section ProberCutShort.
Context (E : env).
Implicit Types (ps : list string) (p : prog) (t : task).

(* the induction hypothesis, at the task the log lines have led to *)
Local Ltac by_IH_aborted :=
  match goal with
  | IH : forall pos fc t ts, _, Hi : targets _ !! _ = Some ?ts,
    Hs : status ?ts = Scanning,
    Hc : completes (probe_paths _ _ _ _ _ ?pos ?fc _) = false
    |- context [exec _ ?t1] =>
      destruct (IH pos fc t1 ts Hi Hs Hc) as (? & ? & ? & ?);
      repeat split; assumption
  end.

Lemma exec_probe_paths_aborted i base tag out ps : forall pos fc t ts,
  targets t !! i = Some ts ->
  status ts = Scanning ->
  completes (probe_paths E i base tag out pos fc ps) = false ->
  snd (exec (probe_paths E i base tag out pos fc ps) t) = Raise
  /\ finished_targets (fst (exec (probe_paths E i base tag out pos fc ps) t))
     = finished_targets t
  /\ (exists ts',
        targets (fst (exec (probe_paths E i base tag out pos fc ps) t)) !! i
        = Some ts'
        /\ name ts' = name ts /\ status ts' = Scanning)
  /\ (forall j, j <> i ->
        targets (fst (exec (probe_paths E i base tag out pos fc ps) t)) !! j
        = targets t !! j).
Proof.
  induction ps as [|path rest IH]; intros pos fc t ts Hi Hs Hc; [done |].
  cbn [probe_paths] in *.
  destruct (urljoin E base path) as [full_url|]; [|by eauto 10].
  cbn [completes exec] in *.
  destruct (session_get E i pos full_url) as [| |resp];
    cbn [completes exec] in *; [by_IH_aborted | by eauto 10 |].
  destruct (content_length_of (content_length_header resp)) as [len|];
    [|by eauto 10].
  destruct (classify _ _ len (url resp)); cbn [completes exec] in *;
    try by_IH_aborted.
  destruct (saves resp); cbn [completes exec] in *; [|by_IH_aborted].
  destruct (update_target_status_found
              (log_line (log_line (log_line t (LogTest full_url))
                           (LogFound (url resp)))
                 (LogSavedTo (save_path out tag (url resp))))
              i (SetFound (fc + 1)) ts Hi)
    as (t' & -> & Hi' & Hother & Hfin).
  destruct (IH (S pos) (fc + 1) t' _ Hi' Hs Hc)
    as (Hret & Hf & (ts' & Hts & Hname & Hstatus) & Hrest).
  split; [done |]. split; [by rewrite Hf, Hfin |].
  split; [by exists ts' |].
  intros j Hj. by rewrite Hrest, Hother.
Qed.

(** Run on its own on a target of the task, a prober that is cut short ends
    by an exception with [finished_targets] as it was and its target left in
    the state "scanning": the target never reaches "done". *)
Theorem exec_aborted_target (i : nat) (target out : string) (ps : list string)
    (t : task) (ts : target_status) :
  targets t !! i = Some ts ->
  normalize_base_url target <> "" ->
  completes (scan_single_target E i target out ps) = false ->
  snd (exec (scan_single_target E i target out ps) t) = Raise
  /\ finished_targets (fst (exec (scan_single_target E i target out ps) t))
     = finished_targets t
  /\ (exists ts',
        targets (fst (exec (scan_single_target E i target out ps) t)) !! i
        = Some ts'
        /\ name ts' = name ts /\ status ts' = Scanning)
  /\ (forall j, j <> i ->
        targets (fst (exec (scan_single_target E i target out ps) t)) !! j
        = targets t !! j).
Proof.
  intros Hi Hbase%is_empty_false. unfold scan_single_target.
  rewrite Hbase. cbn [completes exec].
  destruct (update_target_status_found t i (SetStatus Scanning) ts Hi)
    as (t' & -> & Hi' & Hother & Hfin).
  destruct (urlparse_netloc E _) as [netloc|].
  - intros Hc.
    assert (targets (log_line t' (LogScanStart (normalize_base_url target))) !! i
            = Some (apply_update (SetStatus Scanning) ts)) as Hi'' by done.
    destruct (exec_probe_paths_aborted i _ (host_tag_of netloc) out ps 0%nat 0
                _ _ Hi'' eq_refl Hc)
      as (Hret & Hf & (ts' & Hts & Hname & Hstatus) & Hrest).
    split; [done |]. split; [rewrite Hf; cbn [finished_targets log_line]; lia |].
    split; [by exists ts' |].
    intros j Hj. rewrite (Hrest j Hj). cbn [targets log_line]. by apply Hother.
  - intros _. cbn [exec fst snd targets finished_targets log_line].
    split; [done |]. split; [done |]. split; [|done].
    eexists. split; [exact Hi' | done].
Qed.

End ProberCutShort.

Lemma exec_aborted_target_witness :
  let E := plain_env (fun _ k u =>
             Got {| status_code := 200;
                    content_type_header := Some "application/zip";
                    content_length_header :=
                      Some (if decide (k = 1%nat) then "12, 12" else "12");
                    url := u; saves := true |}) in
  let t := new_task "t1" ["a.example"] ["x.bak"; "y.zip"; "z.sql"] 5 in
  let r := exec (scan_single_target E 0 "a.example" (DOWNLOAD_DIR E) (paths t)) t in
  snd r = Raise
  /\ finished_targets (fst r) = 0
  /\ (exists ts',
        targets (fst r) !! 0%nat = Some ts'
        /\ name ts' = "a.example" /\ status ts' = Scanning)
  /\ (forall j, j <> 0%nat -> targets (fst r) !! j = targets t !! j).
Proof.
  intros E t r.
  exact (exec_aborted_target E 0 "a.example" (DOWNLOAD_DIR E) (paths t) t
           {| name := "a.example"; status := Pending; found := 0 |}
           eq_refl ltac:(discriminate) eq_refl).
Defined.

(** ** The probers that are counted *)

Section ProberCounted.
Context (E : env).
Implicit Types (ps : list string) (t : task).

Lemma exec_scan_finished i target out ps t ts :
  targets t !! i = Some ts ->
  finished_targets (fst (exec (scan_single_target E i target out ps) t))
  = finished_targets t
    + (if completes (scan_single_target E i target out ps) then 1 else 0).
Proof.
  intros Hi. unfold scan_single_target.
  destruct (Str.is_empty _); [cbn; lia |]. cbn [completes exec].
  destruct (update_target_status_found t i (SetStatus Scanning) ts Hi)
    as (t' & -> & Hi' & Hother & Hfin).
  assert (targets (log_line t' (LogScanStart (normalize_base_url target))) !! i
          = Some (apply_update (SetStatus Scanning) ts)) as Hi'' by done.
  destruct (urlparse_netloc E _) as [netloc|];
    [|cbn [completes exec fst finished_targets log_line]; lia].
  destruct (completes (probe_paths E i _ (host_tag_of netloc) out 0 0 ps)) eqn:Hc.
  - destruct (exec_probe_paths_completed E i _ (host_tag_of netloc) out ps 0%nat 0
                _ _ Hi'' Hc) as (_ & -> & _).
    cbn [finished_targets log_line]. lia.
  - destruct (exec_probe_paths_aborted E i _ (host_tag_of netloc) out ps 0%nat 0
                _ _ Hi'' eq_refl Hc) as (_ & -> & _).
    cbn [finished_targets log_line]. lia.
Qed.

(** Run on its own on a target of the task, a prober raises
    [finished_targets], by one, exactly when its target is not blank,
    [urlparse] accepts the base URL and every attempt gets past its unguarded
    lines: the join does not raise, the request ends in a response or in a
    [requests.RequestException], and [int] accepts the declared length.  In
    every other case it leaves [finished_targets] as it was.  Failed
    requests, rejected responses and failed saves do not keep a prober from
    being counted. *)
Theorem prober_counted_iff (i : nat) (target out : string) (ps : list string)
    (t : task) (ts : target_status) :
  targets t !! i = Some ts ->
  (finished_targets (fst (exec (scan_single_target E i target out ps) t))
   = finished_targets t + 1
   <-> normalize_base_url target <> ""
       /\ is_Some (urlparse_netloc E (normalize_base_url target))
       /\ forall k path, ps !! k = Some path ->
            attempt_ok E i k (normalize_base_url target) path = true)
  /\ (finished_targets (fst (exec (scan_single_target E i target out ps) t))
      = finished_targets t + 1
      \/ finished_targets (fst (exec (scan_single_target E i target out ps) t))
         = finished_targets t).
Proof.
  intros Hi. rewrite (exec_scan_finished i target out ps t ts Hi).
  rewrite <- (completes_scan_single_target E i target out ps).
  destruct (completes _).
  - split; [split; done | by left].
  - split; [split; [lia | done] | right; lia].
Qed.

End ProberCounted.

Lemma prober_counted_iff_witness :
  let E := plain_env (fun _ k u =>
             if decide (k = 1%nat) then RequestError
             else Got {| status_code := 200;
                         content_type_header := Some "text/html";
                         content_length_header := Some "100";
                         url := u; saves := false |}) in
  let E' := plain_env (fun _ k u =>
              Got {| status_code := 200;
                     content_type_header := Some "text/html";
                     content_length_header :=
                       Some (String "031" "100");
                     url := u; saves := true |}) in
  let t := new_task "t1" ["a.example"; "b.example"]
             ["x.bak"; "y.zip"; "z.sql"] 5 in
  finished_targets
    (fst (exec (scan_single_target E 1 "b.example" (DOWNLOAD_DIR E) (paths t)) t))
  = 1
  /\ finished_targets
       (fst (exec (scan_single_target E' 1 "b.example" (DOWNLOAD_DIR E') (paths t)) t))
     <> 1.
Proof.
  intros E E' t. split.
  - apply (prober_counted_iff E 1 "b.example" (DOWNLOAD_DIR E) (paths t) t
             {| name := "b.example"; status := Pending; found := 0 |} eq_refl).
    split; [done |]. split; [by eexists |].
    intros [|[|[|k]]] path [= <-]; reflexivity.
  - intros H.
    apply (prober_counted_iff E' 1 "b.example" (DOWNLOAD_DIR E') (paths t) t
             {| name := "b.example"; status := Pending; found := 0 |} eq_refl)
      in H as (_ & _ & H).
    by specialize (H 0%nat "x.bak" eq_refl).
Defined.

(** ** [start_scan] *)



Lemma kept_target_line f raw x :
  target_lines f = Some raw -> x ∈ raw -> x <> "" /\ Str.strip x = x.
Proof.
  unfold target_lines, file_lines, text_lines, target_line.
  intros Hraw Hx.
  assert (exists text, x ∈ kept_lines Str.strip text) as [text Hk].
  { destruct (targets_file f); simplify_eq/=;
      apply elem_of_app in Hx as [Hx|Hx]; eauto.
    by apply elem_of_nil in Hx. }
  apply kept_lines_elem in Hk as (l & -> & Hne).
  split; [done | apply strip_idem].
Qed.

(** What [start_scan] writes into the record of a new task. *)
Lemma start_scan_initial (task_id : string) (f : form) (t : task) :
  start_scan task_id f = Created t ->
  id t = task_id
  /\ logs t = []
  /\ done t = false
  /\ finished_targets t = 0
  /\ total_targets t = Z.of_nat (length (targets t))
  /\ 1 <= total_targets t
  /\ Forall (fun ts => status ts = Pending /\ found ts = 0
                       /\ name ts <> "" /\ Str.strip (name ts) = name ts)
       (targets t)
  /\ 1 <= max_workers t <= 50.
Proof.
  intros (raw & raw_paths & Hraw & _ & Hne & ->)%start_scan_created.
  cbn [new_task id logs done finished_targets total_targets targets max_workers].
  repeat split; try done.
  - by rewrite length_map.
  - destruct (fromkeys raw); [done |]. cbn [length]. lia.
  - apply Forall_fmap, Forall_forall. intros x Hx. simpl.
    destruct (kept_target_line f raw x Hraw (proj1 (fromkeys_elem raw x) Hx)).
    done.
  - rewrite resolve_max_workers_clamp. lia.
  - rewrite resolve_max_workers_clamp. lia.
Qed.

(** A created task starts clean: no log line, [done] false, no target
    finished, every target pending with a found count of 0 and a name that is
    trimmed and not empty, [total_targets] the number of targets and at least
    1, and a worker count within [1, 50]. *)
Theorem created_task_initial (task_id : string) (f : form) (t : task) :
  start_scan task_id f = Created t ->
  id t = task_id
  /\ logs t = []
  /\ done t = false
  /\ finished_targets t = 0
  /\ total_targets t = Z.of_nat (length (targets t))
  /\ 1 <= total_targets t
  /\ Forall (fun ts => status ts = Pending /\ found ts = 0
                       /\ name ts <> "" /\ Str.strip (name ts) = name ts)
       (targets t)
  /\ 1 <= max_workers t <= 50.
Proof. apply start_scan_initial. Qed.

Lemma created_task_initial_witness :
  let f := {| targets_text := Some "  a.example
b.example/app  "; targets_file := Content "a.example
";
              dict_text := None; dict_file := NoFile; threads := Some "80" |} in
  let t := new_task "t1" ["a.example"; "b.example/app"] DEFAULT_PATHS 50 in
  id t = "t1"
  /\ logs t = []
  /\ done t = false
  /\ finished_targets t = 0
  /\ total_targets t = Z.of_nat (length (targets t))
  /\ 1 <= total_targets t
  /\ Forall (fun ts => status ts = Pending /\ found ts = 0
                       /\ name ts <> "" /\ Str.strip (name ts) = name ts)
       (targets t)
  /\ 1 <= max_workers t <= 50.
Proof.
  intros f t. apply (created_task_initial "t1" f t). reflexivity.
Defined.

Lemma kept_path_line text x :
  x ∈ kept_lines path_line text ->
  x <> "" /\ Str.startswith x "/" = false /\ Str.startswith x "\" = false.
Proof.
  intros (l & Hx & Hne)%kept_lines_elem. split; [done |].
  unfold path_line in Hx. destruct x as [|c r]; [done |].
  symmetry in Hx. apply lstrip_by_head_kept in Hx.
  unfold is_slash in Hx. apply orb_false_iff in Hx as [H1 H2].
  rewrite !startswith_cons. cbn [Str.startswith]. rewrite !andb_true_r.
  by rewrite (Ascii.eqb_sym "/"), (Ascii.eqb_sym "\").
Qed.

(** The path list of a created task is the list of the dictionary lines the
    request brings, those of the text box first, then those of the uploaded
    file, each trimmed and without its leading slashes, the empty ones left
    out; the built-in list stands in when, and only when, that leaves
    nothing.  So the path list is never empty, and no entry is empty or
    starts with "/" or "\". *)
Theorem created_task_paths (task_id : string) (f : form) (t : task) :
  start_scan task_id f = Created t ->
  let from_text := Str.strip (default "" (dict_text f)) in
  let from_file := match dict_file f with Content text => text | _ => "" end in
  let given := kept_lines path_line from_text ++ kept_lines path_line from_file in
  dict_file f <> Unreadable
  /\ (given = [] -> paths t = DEFAULT_PATHS)
  /\ (given <> [] -> paths t = given)
  /\ (forall x, x ∈ given <->
        x <> ""
        /\ exists line, x = path_line line
                        /\ line ∈ splitlines from_text ++ splitlines from_file)
  /\ paths t <> []
  /\ Forall (fun path => path <> ""
                         /\ Str.startswith path "/" = false
                         /\ Str.startswith path "\" = false)
       (paths t).
Proof.
  intros (raw & raw_paths & _ & Hpaths & _ & ->)%start_scan_created
    from_text from_file given.
  cbn [new_task paths].
  assert (dict_file f <> Unreadable /\ raw_paths = given) as [Hfile ->].
  { unfold dictionary_lines, file_lines, text_lines in Hpaths.
    subst given from_text from_file.
    destruct (dict_file f); simplify_eq/=; done. }
  split; [done |]. split; [by intros -> |]. split; [by destruct given |].
  split.
  { intros x. unfold given, kept_lines. rewrite <- filter_app, <- fmap_app.
    rewrite list_elem_of_filter, list_elem_of_fmap, is_empty_false.
    split; [intros (? & line & ? & ?) | intros (? & line & ? & ?)]; eauto. }
  split; [by destruct given |].
  assert (Forall (fun path => path <> ""
                              /\ Str.startswith path "/" = false
                              /\ Str.startswith path "\" = false) given)
    as Hall.
  { apply Forall_forall. intros x Hx.
    assert (exists text, x ∈ kept_lines path_line text) as [text Hk].
    { apply elem_of_app in Hx as [Hx|Hx]; eauto. }
    by apply kept_path_line in Hk. }
  destruct given; [|done].
  repeat (constructor; [done |]). constructor.
Qed.

Lemma created_task_paths_witness :
  let f := {| targets_text := Some "a.example"; targets_file := NoFile;
              dict_text := Some "/backup/site.zip
\\old\db.sql
///
"; dict_file := Content "  /.env  
.env"; threads := None |} in
  let t := new_task "t1" ["a.example"]
             ["backup/site.zip"; "old\db.sql"; ".env"; ".env"] 5 in
  let f0 := {| targets_text := Some "a.example"; targets_file := NoFile;
               dict_text := Some " // "; dict_file := Content "";
               threads := None |} in
  let t0 := new_task "t1" ["a.example"] DEFAULT_PATHS 5 in
  paths t = ["backup/site.zip"; "old\db.sql"; ".env"; ".env"]
  /\ paths t0 = DEFAULT_PATHS.
Proof.
  intros f t f0 t0. split.
  - apply (created_task_paths "t1" f t); [reflexivity | by vm_compute].
  - by apply (created_task_paths "t1" f0 t0).
Defined.

(** ** [scan_worker]: the size of the pool *)

(** For a created task the pool has as many workers as the smaller of the
    number of targets and the requested count, between 1 and 50; the floor at
    1 never comes into play. *)
Theorem pool_size_created (task_id : string) (f : form) (t : task) :
  start_scan task_id f = Created t ->
  pool_size t = Z.min (total_targets t) (max_workers t)
  /\ 1 <= pool_size t <= 50
  /\ pool_size t <= total_targets t.
Proof.
  intros Hstart.
  destruct (start_scan_initial task_id f t Hstart)
    as (_ & _ & _ & _ & Htot & Hpos & _ & Hw).
  unfold pool_size. rewrite <- Htot.
  destruct (Z.ltb_spec (Z.min (total_targets t) (max_workers t)) 1); lia.
Qed.

Lemma pool_size_created_witness :
  let f := {| targets_text := Some "a.example
b.example
c.example"; targets_file := NoFile;
              dict_text := None; dict_file := NoFile; threads := Some "80" |} in
  let t := new_task "t1" ["a.example"; "b.example"; "c.example"]
             DEFAULT_PATHS 50 in
  pool_size t = Z.min (total_targets t) (max_workers t)
  /\ 1 <= pool_size t <= 50
  /\ pool_size t <= total_targets t.
Proof.
  intros f t. apply (pool_size_created "t1" f t). reflexivity.
Defined.

(** ** What every interleaving of a scan keeps *)

Lemma run_app E sched1 sched2 s :
  run E (sched1 ++ sched2) s = run E sched1 s ≫= run E sched2.
Proof.
  revert s; induction sched1 as [|c rest IH]; intros s; [done |].
  cbn [app run]. destruct (sys_step E c s); [apply IH | done].
Qed.

(** One step of the scan, as seen through the fields of [progress]. *)
Lemma sys_step_snapshot E c s s' :
  sys_step E c s = Some s' ->
  logs (shared s) `prefix_of` logs (shared s')
  /\ total_targets (shared s') = total_targets (shared s)
  /\ finished_targets (shared s) <= finished_targets (shared s')
  /\ (done (shared s) = true -> done (shared s') = true).
Proof.
  destruct c as [|i]; cbn [sys_step].
  - unfold main_step.
    destruct (main s); try done;
      try (intros [= <-]; cbn; repeat split; try done; try lia;
           by apply prefix_app_r).
    destruct (workers s !! i) as [[]|]; try done;
      try (intros [= <-]; cbn; repeat split; try done; try lia;
           by apply prefix_app_r).
    destruct (forallb terminated (workers s)); [|done].
    intros [= <-]; cbn; repeat split; try done; lia.
  - unfold worker_step. destruct (pool_open (main s)); [|done].
    destruct (workers s !! i) as [p|]; [|done]. cbn.
    destruct (prog_step p (shared s)) as [[t' p']|] eqn:Hp; [|done].
    intros [= <-]. cbn [shared].
    destruct p; cbn [prog_step] in Hp; try done.
    + injection Hp as <- <-. cbn. repeat split; try done; try lia.
      by apply prefix_app_r.
    + unfold update_target_status in Hp. case_bool_decide;
        injection Hp as <- <-; cbn; repeat split; try done; lia.
    + injection Hp as <- <-. cbn. repeat split; try done; lia.
    + injection Hp as <- <-. cbn. repeat split; try done; try lia.
      by apply prefix_app_r.
Qed.

Lemma run_snapshot E sched : forall s s',
  run E sched s = Some s' ->
  logs (shared s) `prefix_of` logs (shared s')
  /\ total_targets (shared s') = total_targets (shared s)
  /\ finished_targets (shared s) <= finished_targets (shared s')
  /\ (done (shared s) = true -> done (shared s') = true).
Proof.
  induction sched as [|c rest IH]; intros s s'; cbn [run].
  - intros [= <-]. repeat split; try done; lia.
  - destruct (sys_step E c s) as [s1|] eqn:Hc; [|done]. intros Hrun.
    destruct (sys_step_snapshot E c s s1 Hc) as (Hl & Ht & Hf & Hd).
    destruct (IH s1 s' Hrun) as (Hl' & Ht' & Hf' & Hd').
    repeat split; [by etrans | congruence | lia | auto].
Qed.

(** The log only grows: whatever the threads do between two readings, the
    earlier log is a prefix of the later one. *)
Theorem logs_append_only (E : env) (sched : list choice) (s s' : sys) :
  run E sched s = Some s' ->
  logs (shared s) `prefix_of` logs (shared s').
Proof. intros Hrun. by destruct (run_snapshot E sched s s' Hrun). Qed.

Lemma logs_append_only_witness :
  let E := plain_env (fun _ _ _ => RequestError) in
  let t := new_task "t1" ["a.example"] ["x.bak"] 5 in
  [LogTaskStart 1 1 1; LogDownloadDir "/srv/app/downloads"]
  `prefix_of`
  [LogTaskStart 1 1 1; LogDownloadDir "/srv/app/downloads";
   LogScanStart "http://a.example/"; LogTest "http://a.example/x.bak";
   LogRequestError].
Proof.
  intros E t.
  apply (logs_append_only E (replicate 5 (RunWorker 0))
           {| shared := log_line (log_line t (LogTaskStart 1 1 1))
                          (LogDownloadDir "/srv/app/downloads");
              workers := submitted E t; main := Collecting 0 |}
           {| shared :=
                {| id := "t1";
                   logs := [LogTaskStart 1 1 1;
                            LogDownloadDir "/srv/app/downloads";
                            LogScanStart "http://a.example/";
                            LogTest "http://a.example/x.bak"; LogRequestError];
                   targets := [{| name := "a.example"; status := Done;
                                  found := 0 |}];
                   total_targets := 1; finished_targets := 0;
                   paths := ["x.bak"]; max_workers := 5; done := false |};
              workers := [Finish "http://a.example/"];
              main := Collecting 0 |}).
  reflexivity.
Defined.

(** Between two readings of a created task the counters only move one way:
    [total_targets] stays what it was at creation, [finished_targets] never
    decreases and never exceeds it, and [done] is never reset. *)
Theorem counters_only_grow (E : env) (task_id : string) (f : form) (t : task)
    (sched1 sched2 : list choice) (s1 s2 : sys) :
  start_scan task_id f = Created t ->
  run E sched1 (scan_worker E t) = Some s1 ->
  run E sched2 s1 = Some s2 ->
  total_targets (shared s2) = total_targets t
  /\ 0 <= finished_targets (shared s1)
  /\ finished_targets (shared s1) <= finished_targets (shared s2)
  /\ finished_targets (shared s2) <= total_targets t
  /\ (done (shared s1) = true -> done (shared s2) = true).
Proof.
  intros Hstart Hrun1 Hrun2.
  pose proof (scan_worker_inv E _ _ _ Hstart) as Hinv0.
  pose proof (run_inv E _ _ _ Hrun1 Hinv0) as Hinv1.
  pose proof (run_inv E _ _ _ Hrun2 Hinv1) as Hinv2.
  destruct (run_snapshot E _ _ _ Hrun1) as (_ & Ht1 & _ & _).
  destruct (run_snapshot E _ _ _ Hrun2) as (_ & Ht2 & Hf & Hd).
  pose proof (finished_le_total s1 Hinv1).
  pose proof (finished_le_total s2 Hinv2).
  cbn [scan_worker shared] in Ht1.
  repeat split; try done; try lia; congruence.
Qed.

Lemma counters_only_grow_witness :
  let f := {| targets_text := Some "a.example"; targets_file := NoFile;
              dict_text := Some "x.bak"; dict_file := NoFile;
              threads := None |} in
  let t := new_task "t1" ["a.example"] ["x.bak"] 5 in
  let E := plain_env (fun _ _ _ => RequestError) in
  let s1 := {| shared :=
                 {| id := "t1";
                    logs := [LogTaskStart 1 1 1;
                             LogDownloadDir "/srv/app/downloads";
                             LogScanStart "http://a.example/"];
                    targets := [{| name := "a.example"; status := Scanning;
                                   found := 0 |}];
                    total_targets := 1; finished_targets := 0;
                    paths := ["x.bak"]; max_workers := 5; done := false |};
               workers := [probe_paths E 0 "http://a.example/" "a.example"
                             "/srv/app/downloads" 0 0 ["x.bak"]];
               main := Collecting 0 |} in
  let s2 := {| shared :=
                 {| id := "t1";
                    logs := [LogTaskStart 1 1 1;
                             LogDownloadDir "/srv/app/downloads";
                             LogScanStart "http://a.example/";
                             LogTest "http://a.example/x.bak"; LogRequestError];
                    targets := [{| name := "a.example"; status := Done;
                                   found := 0 |}];
                    total_targets := 1; finished_targets := 1;
                    paths := ["x.bak"]; max_workers := 5; done := false |};
               workers := [Report "http://a.example/" 1 1];
               main := Collecting 0 |} in
  total_targets (shared s2) = total_targets t
  /\ 0 <= finished_targets (shared s1)
  /\ finished_targets (shared s1) <= finished_targets (shared s2)
  /\ finished_targets (shared s2) <= total_targets t
  /\ (done (shared s1) = true -> done (shared s2) = true).
Proof.
  intros f t E s1 s2.
  apply (counters_only_grow E "t1" f t
           [RunMain; RunMain; RunWorker 0; RunWorker 0]
           (replicate 4 (RunWorker 0)) s1 s2); reflexivity.
Defined.

(** Once [done] is set the scan is over: no thread has a step left, so the
    snapshot that [progress] returns never changes again. *)
Theorem done_is_final (E : env) (task_id : string) (f : form) (t : task)
    (sched sched' : list choice) (s s' : sys) :
  start_scan task_id f = Created t ->
  run E sched (scan_worker E t) = Some s ->
  done (shared s) = true ->
  run E sched' s = Some s' ->
  s' = s.
Proof.
  intros Hstart Hrun Hdone Hrun'.
  pose proof (run_inv E _ _ _ Hrun (scan_worker_inv E _ _ _ Hstart)) as Hinv.
  pose proof (inv_done s Hinv Hdone) as Hmain.
  destruct sched' as [|c rest]; [by injection Hrun' as <- |].
  cbn [run] in Hrun'.
  assert (sys_step E c s = None) as Hnone.
  { destruct c; cbn [sys_step]; unfold main_step, worker_step;
      by rewrite Hmain. }
  by rewrite Hnone in Hrun'.
Qed.

Lemma done_is_final_witness :
  let f := {| targets_text := Some "a.example"; targets_file := NoFile;
              dict_text := Some "x.bak"; dict_file := NoFile;
              threads := None |} in
  let t := new_task "t1" ["a.example"] ["x.bak"] 5 in
  let E := plain_env (fun _ _ _ => RequestError) in
  let s := {| shared :=
                {| id := "t1";
                   logs := [LogTaskStart 1 1 1;
                            LogDownloadDir "/srv/app/downloads";
                            LogScanStart "http://a.example/";
                            LogTest "http://a.example/x.bak"; LogRequestError;
                            LogTargetDone "http://a.example/" 1 1; LogAllDone];
                   targets := [{| name := "a.example"; status := Done;
                                  found := 0 |}];
                   total_targets := 1; finished_targets := 1;
                   paths := ["x.bak"]; max_workers := 5; done := true |};
              workers := [Return]; main := Stopped |} in
  s = s.
Proof.
  intros f t E s.
  apply (done_is_final E "t1" f t
           ([RunMain; RunMain] ++ replicate 7 (RunWorker 0) ++ replicate 4 RunMain)
           [] s s); reflexivity.
Defined.

(** ** The target table *)

Section TargetTable.
Context (E : env).
Implicit Types (s : sys) (t : task) (p : prog) (ts : target_status).

Lemma target_le_refl ts : target_le ts ts.
Proof. by repeat split. Qed.

Lemma target_le_trans ts1 ts2 ts3 :
  target_le ts1 ts2 -> target_le ts2 ts3 -> target_le ts1 ts3.
Proof. intros (? & ? & ?) (? & ? & ?). repeat split; [congruence | lia | lia]. Qed.

Lemma follows_probe_paths i base tag out ps : forall pos fc st f,
  f <= fc + 1 ->
  follows i st f (probe_paths E i base tag out pos fc ps).
Proof.
  induction ps as [|path rest IH]; intros pos fc st f Hf.
  - cbn [probe_paths follows]. split; [done |]. split; [|done].
    destruct st; cbn; lia.
  - cbn [probe_paths].
    destruct (urljoin E base path); [|done]. cbn [follows].
    destruct (session_get E i pos _) as [| |resp]; cbn [follows];
      [by apply IH | done |].
    destruct (content_length_of _); [|done].
    destruct (classify _ _ _ _); cbn [follows]; try by apply IH.
    destruct (saves resp); cbn [follows]; [|by apply IH].
    split; [done |]. split; [done |]. split; apply IH; lia.
Qed.

Lemma follows_scan_single_target i target out ps f :
  f <= 1 -> follows i Pending f (scan_single_target E i target out ps).
Proof.
  intros Hf. unfold scan_single_target.
  destruct (Str.is_empty _); [done |]. cbn [follows].
  split; [done |]. split; [cbn; lia |]. split; [|done].
  destruct (urlparse_netloc E _); [|done]. by apply follows_probe_paths.
Qed.

Lemma scan_worker_targets_inv task_id f t :
  start_scan task_id f = Created t -> targets_inv (scan_worker E t).
Proof.
  intros Hstart.
  destruct (start_scan_initial task_id f t Hstart)
    as (_ & _ & _ & _ & _ & _ & Hts & _).
  intros i p. cbn [scan_worker workers shared]. unfold submitted.
  rewrite list_lookup_imap.
  destruct (targets t !! i) as [ts|] eqn:Hi; [|done].
  intros [= <-]. exists ts. split; [done |].
  destruct (Forall_lookup_1 _ _ _ _ Hts Hi) as (-> & -> & _).
  by apply follows_scan_single_target.
Qed.

(** One step: the probers still keep to their targets, and every entry of
    the table stays where it is, with the same name and with a status and a
    found count that have not gone back. *)
Lemma sys_step_targets c s s' :
  sys_step E c s = Some s' -> targets_inv s ->
  targets_inv s'
  /\ length (targets (shared s')) = length (targets (shared s))
  /\ (forall i ts, targets (shared s) !! i = Some ts ->
        exists ts', targets (shared s') !! i = Some ts' /\ target_le ts ts').
Proof.
  intros Hstep Hinv.
  assert (targets (shared s') = targets (shared s) ->
          workers s' = workers s ->
          targets_inv s'
          /\ length (targets (shared s')) = length (targets (shared s))
          /\ (forall i ts, targets (shared s) !! i = Some ts ->
                exists ts', targets (shared s') !! i = Some ts'
                            /\ target_le ts ts')) as Hsame.
  { intros Ht Hw. split; [|split; [by rewrite Ht |]].
    - intros i p. rewrite Ht, Hw. apply Hinv.
    - intros i ts Hi. exists ts. rewrite Ht. split; [done | apply target_le_refl]. }
  destruct c as [|i]; cbn [sys_step] in Hstep.
  - unfold main_step in Hstep.
    destruct (main s); try done; try (injection Hstep as <-; by apply Hsame).
    destruct (workers s !! i) as [[]|]; try done;
      try (injection Hstep as <-; by apply Hsame).
    destruct (forallb terminated (workers s)); [|done].
    injection Hstep as <-; by apply Hsame.
  - unfold worker_step in Hstep. destruct (pool_open (main s)); [|done].
    destruct (workers s !! i) as [p|] eqn:Hi; [|done]. cbn in Hstep.
    destruct (prog_step p (shared s)) as [[t' p']|] eqn:Hp; [|done].
    injection Hstep as <-. cbn [shared workers].
    destruct (Hinv i p Hi) as (ts & Hts & Hfollows).
    assert (forall t1 p1, targets t1 = targets (shared s) ->
              follows i (status ts) (found ts) p1 ->
              targets_inv {| shared := t1; workers := <[i:=p1]> (workers s);
                             main := main s |}) as Hkeep.
    { intros t1 p1 Ht1 Hp1 j q. cbn [shared workers]. rewrite Ht1.
      destruct (decide (i = j)) as [<-|Hne].
      - rewrite list_lookup_insert_eq by (by eapply lookup_lt_Some).
        intros [= <-]. eauto.
      - rewrite list_lookup_insert_ne by done. apply Hinv. }
    assert (forall t1, targets t1 = targets (shared s) ->
              length (targets t1) = length (targets (shared s))
              /\ (forall j ts0, targets (shared s) !! j = Some ts0 ->
                    exists ts', targets t1 !! j = Some ts' /\ target_le ts0 ts'))
      as Hrefl.
    { intros t1 ->. split; [done |]. intros j ts0 Hj. exists ts0.
      split; [done | apply target_le_refl]. }
    destruct p as [| |msg k|index u k h|base|base n total];
      cbn [prog_step] in Hp; try done.
    + injection Hp as <- <-. split; [by apply Hkeep | by apply Hrefl].
    + assert (index = i /\ follows i (status ts) (found ts) h
              /\ follows i (status (apply_update u ts))
                   (found (apply_update u ts)) k
              /\ target_le ts (apply_update u ts)) as (-> & Hh & Hk & Hle).
      { destruct u; cbn [follows] in Hfollows;
          destruct Hfollows as (-> & ? & ? & ?); by repeat split. }
      destruct (update_target_status_found (shared s) i u ts Hts)
        as (t1 & Hup & Hi1 & Hother & _).
      rewrite Hup in Hp. injection Hp as <- <-.
      split; [|split].
      * intros j q. cbn [shared workers].
        destruct (decide (i = j)) as [<-|Hne].
        -- rewrite list_lookup_insert_eq by (by eapply lookup_lt_Some).
           intros [= <-]. eauto.
        -- rewrite list_lookup_insert_ne, Hother by done. apply Hinv.
      * unfold update_target_status in Hup. case_bool_decide; [|done].
        injection Hup as <-. cbn [targets]. apply length_alter.
      * intros j ts0 Hj. destruct (decide (j = i)) as [->|Hne].
        -- exists (apply_update u ts). split; [done |]. congruence.
        -- exists ts0. rewrite Hother by done.
           split; [done | apply target_le_refl].
    + injection Hp as <- <-. split; [by apply Hkeep | by apply Hrefl].
    + injection Hp as <- <-. split; [by apply Hkeep | by apply Hrefl].
Qed.

Lemma run_targets sched : forall s s',
  run E sched s = Some s' -> targets_inv s ->
  targets_inv s'
  /\ length (targets (shared s')) = length (targets (shared s))
  /\ (forall i ts, targets (shared s) !! i = Some ts ->
        exists ts', targets (shared s') !! i = Some ts' /\ target_le ts ts').
Proof.
  induction sched as [|c rest IH]; intros s s'; cbn [run].
  - intros [= <-] Hinv. split; [done |]. split; [done |].
    intros i ts Hi. exists ts. split; [done | apply target_le_refl].
  - destruct (sys_step E c s) as [s1|] eqn:Hc; [|done]. intros Hrun Hinv.
    destruct (sys_step_targets c s s1 Hc Hinv) as (Hinv1 & Hlen1 & Hle1).
    destruct (IH s1 s' Hrun Hinv1) as (Hinv' & Hlen' & Hle').
    split; [done |]. split; [congruence |].
    intros i ts Hi. destruct (Hle1 i ts Hi) as (ts1 & Hi1 & H1).
    destruct (Hle' i ts1 Hi1) as (ts' & Hi' & H').
    exists ts'. split; [done |]. by eapply target_le_trans.
Qed.

(** Between two readings of a created task the target table keeps its
    length and its order, every target keeps its name, no status goes back
    (pending, scanning, done) and no found count goes down, whatever the
    threads do in between. *)
Theorem targets_never_go_back (task_id : string) (f : form) (t : task)
    (sched1 sched2 : list choice) (s1 s2 : sys) :
  start_scan task_id f = Created t ->
  run E sched1 (scan_worker E t) = Some s1 ->
  run E sched2 s1 = Some s2 ->
  length (targets (shared s2)) = length (targets t)
  /\ (forall i ts1, targets (shared s1) !! i = Some ts1 ->
        exists ts2,
          targets (shared s2) !! i = Some ts2
          /\ name ts2 = name ts1
          /\ (state_rank (status ts1) <= state_rank (status ts2))%nat
          /\ found ts1 <= found ts2).
Proof.
  intros Hstart Hrun1 Hrun2.
  destruct (run_targets _ _ _ Hrun1 (scan_worker_targets_inv _ _ _ Hstart))
    as (Hinv1 & Hlen1 & _).
  destruct (run_targets _ _ _ Hrun2 Hinv1) as (_ & Hlen2 & Hle).
  split; [by rewrite Hlen2, Hlen1 |].
  intros i ts1 Hi. destruct (Hle i ts1 Hi) as (ts2 & Hi2 & Hn & Hr & Hf).
  exists ts2. by repeat split.
Qed.

End TargetTable.

Lemma targets_never_go_back_witness :
  let f := {| targets_text := Some "a.example"; targets_file := NoFile;
              dict_text := Some "x.bak"; dict_file := NoFile;
              threads := None |} in
  let t := new_task "t1" ["a.example"] ["x.bak"] 5 in
  let E := plain_env (fun _ _ u =>
             Got {| status_code := 200;
                    content_type_header := Some "application/octet-stream";
                    content_length_header := Some "100";
                    url := u; saves := true |}) in
  let s1 := {| shared :=
                 {| id := "t1";
                    logs := [LogTaskStart 1 1 1;
                             LogDownloadDir "/srv/app/downloads";
                             LogScanStart "http://a.example/"];
                    targets := [{| name := "a.example"; status := Scanning;
                                   found := 0 |}];
                    total_targets := 1; finished_targets := 0;
                    paths := ["x.bak"]; max_workers := 5; done := false |};
               workers := [probe_paths E 0 "http://a.example/" "a.example"
                             "/srv/app/downloads" 0 0 ["x.bak"]];
               main := Collecting 0 |} in
  let s2 := {| shared :=
                 {| id := "t1";
                    logs := [LogTaskStart 1 1 1;
                             LogDownloadDir "/srv/app/downloads";
                             LogScanStart "http://a.example/";
                             LogTest "http://a.example/x.bak";
                             LogFound "http://a.example/x.bak";
                             LogSavedTo
                               "/srv/app/downloads/a.example/a.example_x.bak"];
                    targets := [{| name := "a.example"; status := Done;
                                   found := 1 |}];
                    total_targets := 1; finished_targets := 0;
                    paths := ["x.bak"]; max_workers := 5; done := false |};
               workers := [Finish "http://a.example/"];
               main := Collecting 0 |} in
  length (targets (shared s2)) = length (targets t)
  /\ (forall i ts1, targets (shared s1) !! i = Some ts1 ->
        exists ts2,
          targets (shared s2) !! i = Some ts2
          /\ name ts2 = name ts1
          /\ (state_rank (status ts1) <= state_rank (status ts2))%nat
          /\ found ts1 <= found ts2).
Proof.
  intros f t E s1 s2.
  apply (targets_never_go_back E "t1" f t
           [RunMain; RunMain; RunWorker 0; RunWorker 0]
           (replicate 5 (RunWorker 0)) s1 s2); reflexivity.
Defined.

(** ** Duplicate lines of the dictionary *)


Section Attempts.
Context (E : env).
Implicit Types (ps : list string).



End Attempts.




(** ** A scan always comes to its end *)

Section Liveness.
Context (E : env).
Implicit Types (s : sys) (t : task) (p : prog) (ws : list prog).

(** A prober that has not ended has a critical section to take, whatever
    the task looks like, and has fewer left after it. *)
Lemma prog_step_progress p t :
  terminated p = false ->
  exists t' p', prog_step p t = Some (t', p') /\ (size p' < size p)%nat.
Proof.
  destruct p as [| |msg k|index u k h|base|base n total]; cbn [terminated];
    try done; intros _; cbn [prog_step size].
  - eauto.
  - destruct (update_target_status t index u); eexists _, _;
      (split; [done | lia]).
  - eexists _, _. split; [done |]. cbn [size]. lia.
  - eexists _, _. split; [done |]. cbn [size]. lia.
Qed.

Lemma sum_size_insert ws i p p' :
  ws !! i = Some p -> (size p' < size p)%nat ->
  (sum_list (size <$> <[i:=p']> ws) < sum_list (size <$> ws))%nat.
Proof.
  revert i; induction ws as [|q ws IH]; intros [|i] Hi Hlt; try done.
  - injection Hi as ->. csimpl. lia.
  - csimpl. specialize (IH i Hi Hlt). lia.
Qed.

Lemma worker_progress s i p :
  pool_open (main s) = true ->
  workers s !! i = Some p -> terminated p = false ->
  exists s', sys_step E (RunWorker i) s = Some s'
             /\ (steps_left s' < steps_left s)%nat.
Proof.
  intros Hopen Hi Hp. cbn [sys_step]. unfold worker_step. rewrite Hopen, Hi. cbn.
  destruct (prog_step_progress p (shared s) Hp) as (t' & p' & -> & Hlt).
  eexists. split; [done |]. unfold steps_left. cbn [workers main].
  rewrite length_insert.
  pose proof (sum_size_insert (workers s) i p p' Hi Hlt). lia.
Qed.

Lemma unfinished_worker ws :
  forallb terminated ws = false ->
  exists i p, ws !! i = Some p /\ terminated p = false.
Proof.
  induction ws as [|q ws IH]; [done |]. cbn [forallb].
  destruct (terminated q) eqn:Hq.
  - intros (i & p & ? & ?)%IH. by exists (S i), p.
  - intros _. by exists 0%nat, q.
Qed.

(** As long as the orchestrator has not stopped, some thread can take a
    step, and the step brings the end nearer. *)
Lemma sys_progress s :
  main s <> Stopped ->
  exists c s', sys_step E c s = Some s' /\ (steps_left s' < steps_left s)%nat.
Proof.
  intros Hmain. destruct (main s) as [| |i|i| | |] eqn:Hm; try done.
  - exists RunMain. cbn [sys_step]. unfold main_step. rewrite Hm.
    eexists. split; [done |]. unfold steps_left. cbn [workers main].
    rewrite Hm. cbn [orch_rank]. lia.
  - exists RunMain. cbn [sys_step]. unfold main_step. rewrite Hm.
    eexists. split; [done |]. unfold steps_left. cbn [workers main].
    rewrite Hm. cbn [orch_rank]. lia.
  - destruct (workers s !! i) as [p|] eqn:Hi.
    + destruct (terminated p) eqn:Hp.
      * exists RunMain. cbn [sys_step]. unfold main_step. rewrite Hm, Hi.
        apply lookup_lt_Some in Hi.
        destruct p; try done; eexists; (split; [done |]);
          unfold steps_left; cbn [workers main]; rewrite Hm; cbn [orch_rank]; lia.
      * exists (RunWorker i). eapply worker_progress; [by rewrite Hm | done..].
    + destruct (forallb terminated (workers s)) eqn:Hall.
      * exists RunMain. cbn [sys_step]. unfold main_step. rewrite Hm, Hi, Hall.
        eexists; split; [done |]. unfold steps_left. cbn [workers main].
        rewrite Hm. cbn [orch_rank]. lia.
      * destruct (unfinished_worker _ Hall) as (j & p & Hj & Hp).
        exists (RunWorker j). eapply worker_progress; [by rewrite Hm | done..].
  - exists RunMain. cbn [sys_step]. unfold main_step. rewrite Hm.
    eexists. split; [done |]. unfold steps_left. cbn [workers main].
    rewrite Hm. cbn [orch_rank]. lia.
  - exists RunMain. cbn [sys_step]. unfold main_step. rewrite Hm.
    eexists. split; [done |]. unfold steps_left. cbn [workers main].
    rewrite Hm. cbn [orch_rank]. lia.
  - exists RunMain. cbn [sys_step]. unfold main_step. rewrite Hm.
    eexists. split; [done |]. unfold steps_left. cbn [workers main].
    rewrite Hm. cbn [orch_rank]. lia.
Qed.

(** The orchestrator stops only by setting [done]. *)
Lemma sys_step_stopped c s s' :
  sys_step E c s = Some s' ->
  (main s = Stopped -> done (shared s) = true) ->
  main s' = Stopped -> done (shared s') = true.
Proof.
  destruct c as [|i]; cbn [sys_step].
  - unfold main_step. destruct (main s) eqn:Hm; try done;
      try (by intros [= <-]).
    destruct (workers s !! i) as [[]|]; try done; try (by intros [= <-]).
    destruct (forallb terminated (workers s)); [|done]. by intros [= <-].
  - unfold worker_step. destruct (pool_open (main s)) eqn:Hopen; [|done].
    destruct (workers s !! i) as [p|]; [|done]. cbn.
    destruct (prog_step p (shared s)) as [[t' p']|]; [|done].
    intros [= <-] _. cbn [main]. intros Hm. by rewrite Hm in Hopen.
Qed.

Lemma run_stopped sched : forall s s',
  run E sched s = Some s' ->
  (main s = Stopped -> done (shared s) = true) ->
  main s' = Stopped -> done (shared s') = true.
Proof.
  induction sched as [|c rest IH]; intros s s'; cbn [run].
  - by intros [= <-].
  - destruct (sys_step E c s) as [s1|] eqn:Hc; [|done]. intros Hrun Hs.
    apply (IH s1 s' Hrun). by eapply sys_step_stopped.
Qed.

Lemma reaches_done n : forall s,
  (steps_left s < n)%nat ->
  (main s = Stopped -> done (shared s) = true) ->
  exists sched s', run E sched s = Some s' /\ done (shared s') = true.
Proof.
  induction n as [|n IH]; intros s Hn Hs; [lia |].
  assert (main s = Stopped \/ main s <> Stopped) as [Hm|Hm]
    by (destruct (main s); auto).
  { exists [], s. split; [done | auto]. }
  destruct (sys_progress s Hm) as (c & s1 & Hc & Hlt).
  destruct (IH s1) as (sched & s' & Hrun & Hdone); [lia | |].
  { by eapply sys_step_stopped. }
  exists (c :: sched), s'. cbn [run]. by rewrite Hc.
Qed.

(** Every critical section a prober takes leaves it fewer to take. *)
Lemma prog_step_decreases p t t' p' :
  prog_step p t = Some (t', p') -> (size p' < size p)%nat.
Proof.
  intros Hstep.
  destruct (prog_step_progress p t) as (t1 & p1 & Hstep1 & Hlt);
    [by destruct p |].
  rewrite Hstep in Hstep1. by injection Hstep1 as _ <-.
Qed.

(** Every step of a thread brings the end nearer. *)
Lemma sys_step_decreases c s s' :
  sys_step E c s = Some s' -> (steps_left s' < steps_left s)%nat.
Proof.
  destruct c as [|i]; cbn [sys_step].
  - unfold main_step, steps_left.
    destruct (main s) as [| |i|i| | |] eqn:Hm; try done.
    + intros [= <-]. cbn [workers main orch_rank]. lia.
    + intros [= <-]. cbn [workers main orch_rank]. lia.
    + destruct (workers s !! i) as [p|] eqn:Hi.
      * apply lookup_lt_Some in Hi.
        destruct p; try done; intros [= <-]; cbn [workers main orch_rank]; lia.
      * destruct (forallb terminated (workers s)); [|done].
        intros [= <-]. cbn [workers main orch_rank]. lia.
    + intros [= <-]. cbn [workers main orch_rank]. lia.
    + intros [= <-]. cbn [workers main orch_rank]. lia.
    + intros [= <-]. cbn [workers main orch_rank]. lia.
  - unfold worker_step. destruct (pool_open (main s)); [|done].
    destruct (workers s !! i) as [p|] eqn:Hi; [|done]. cbn.
    destruct (prog_step p (shared s)) as [[t' p']|] eqn:Hstep; [|done].
    intros [= <-]. unfold steps_left. cbn [workers main].
    rewrite length_insert.
    pose proof (sum_size_insert (workers s) i p p' Hi
                  (prog_step_decreases _ _ _ _ Hstep)).
    lia.
Qed.

Lemma run_bounded sched : forall s s',
  run E sched s = Some s' -> (length sched + steps_left s' <= steps_left s)%nat.
Proof.
  induction sched as [|c rest IH]; intros s s'; cbn [run length].
  - intros [= <-]. lia.
  - destruct (sys_step E c s) as [s1|] eqn:Hc; [|done].
    intros Hrun%IH. apply sys_step_decreases in Hc. lia.
Qed.

(** What the orchestrator waits for: when it has not stopped and has no
    step to take, a prober that has not ended has one. *)
Lemma sys_progress_who s :
  main s <> Stopped ->
  is_Some (main_step E s)
  \/ exists i p, workers s !! i = Some p /\ terminated p = false
                 /\ is_Some (worker_step i s).
Proof.
  intros Hmain.
  assert (Hworker : forall i p,
            pool_open (main s) = true -> workers s !! i = Some p ->
            terminated p = false ->
            exists j q, workers s !! j = Some q /\ terminated q = false
                        /\ is_Some (worker_step j s)).
  { intros i p Hopen Hi Hp. exists i, p. split; [done |]. split; [done |].
    destruct (worker_progress s i p Hopen Hi Hp) as (s' & Hs' & _).
    cbn [sys_step] in Hs'. by rewrite Hs'. }
  unfold main_step.
  destruct (main s) as [| |i|i| | |] eqn:Hm; try done; try (by left).
  destruct (workers s !! i) as [p|] eqn:Hi.
  - destruct (terminated p) eqn:Hp; [left; by destruct p | right; eauto].
  - destruct (forallb terminated (workers s)) eqn:Hall; [by left |].
    destruct (unfinished_worker _ Hall) as (j & p & Hj & Hp). right. eauto.
Qed.

(** The threads of a scan neither block one another nor run on for ever.
    From every state a scan can be in, however the critical sections of its
    threads have interleaved and whether probers returned or raised: the
    threads have a way on to a state where [done] is true; no continuation
    has more steps than [steps_left] counts; a state in which no thread has
    a step left to take has [done] set; and as long as [done] is not set,
    the orchestrator has a step to take or a prober that has not ended has
    one, so that the orchestrator never waits for anything but a prober at
    work.  A step of a prober stands for a request or a download that has
    come back: a prober held in one that never comes back takes no step. *)
Theorem scan_reaches_done (t : task) (sched : list choice) (s : sys) :
  run E sched (scan_worker E t) = Some s ->
  (exists sched' s', run E sched' s = Some s' /\ done (shared s') = true)
  /\ (forall sched' s',
        run E sched' s = Some s' ->
        (length sched' + steps_left s' <= steps_left s)%nat
        /\ ((forall c, sys_step E c s' = None) -> done (shared s') = true)
        /\ (done (shared s') = true
            \/ is_Some (sys_step E RunMain s')
            \/ exists i p, workers s' !! i = Some p /\ terminated p = false
                           /\ is_Some (sys_step E (RunWorker i) s'))).
Proof.
  intros Hrun.
  assert (Hstop : main s = Stopped -> done (shared s) = true)
    by (by apply (run_stopped sched (scan_worker E t) s Hrun)).
  split; [by apply (reaches_done (S (steps_left s))); [lia |] |].
  intros sched' s' Hrun'. split; [by apply run_bounded |].
  pose proof (run_stopped sched' s s' Hrun' Hstop) as Hstop'.
  assert (Hwho : done (shared s') = true
                 \/ is_Some (sys_step E RunMain s')
                 \/ exists i p, workers s' !! i = Some p /\ terminated p = false
                                /\ is_Some (sys_step E (RunWorker i) s')).
  { assert (main s' = Stopped \/ main s' <> Stopped) as [Hm|Hm]
      by (destruct (main s'); auto).
    - left. auto.
    - right. by apply sys_progress_who. }
  split; [|done].
  intros Hstuck. destruct Hwho as [Hd|[Hmain|(i & p & _ & _ & Hw)]]; [done | |].
  - rewrite Hstuck in Hmain. by destruct Hmain.
  - rewrite Hstuck in Hw. by destruct Hw.
Qed.

End Liveness.

Lemma scan_reaches_done_witness :
  let t := new_task "t1" ["a.example"] ["x.bak"] 5 in
  let E := plain_env (fun _ _ u =>
             Got {| status_code := 200;
                    content_type_header := Some "application/zip";
                    content_length_header := Some "abc";
                    url := u; saves := true |}) in
  let s := {| shared :=
                {| id := "t1";
                   logs := [LogTaskStart 1 1 1;
                            LogDownloadDir "/srv/app/downloads";
                            LogScanStart "http://a.example/";
                            LogTest "http://a.example/x.bak"];
                   targets := [{| name := "a.example"; status := Scanning;
                                  found := 0 |}];
                   total_targets := 1; finished_targets := 0;
                   paths := ["x.bak"]; max_workers := 5; done := false |};
              workers := [Raise]; main := Collecting 0 |} in
  (exists sched' s', run E sched' s = Some s' /\ done (shared s') = true)
  /\ (forall sched' s',
        run E sched' s = Some s' ->
        (length sched' + steps_left s' <= 5)%nat
        /\ ((forall c, sys_step E c s' = None) -> done (shared s') = true)
        /\ (done (shared s') = true
            \/ is_Some (sys_step E RunMain s')
            \/ exists i p, workers s' !! i = Some p /\ terminated p = false
                           /\ is_Some (sys_step E (RunWorker i) s'))).
Proof.
  intros t E s.
  apply (scan_reaches_done E t
           [RunMain; RunMain; RunWorker 0; RunWorker 0; RunWorker 0] s).
  reflexivity.
Defined.

(** ** Targets marked done *)

Section Marks.
Context (E : env).
Implicit Types (s : sys) (t : task) (p : prog) (ts : target_status).

Lemma before_done_probe_paths i base tag out ps : forall pos fc,
  before_done i (probe_paths E i base tag out pos fc ps).
Proof.
  induction ps as [|path rest IH]; intros pos fc; [done |].
  cbn [probe_paths].
  destruct (urljoin E base path); [|done]. cbn [before_done].
  destruct (session_get E i pos _) as [| |resp]; cbn [before_done];
    [by apply IH | done |].
  destruct (content_length_of _); [|done].
  destruct (classify _ _ _ _); cbn [before_done]; try by apply IH.
  destruct (saves resp); cbn [before_done]; [|by apply IH].
  split; [done |]. split; apply IH.
Qed.

Lemma before_done_scan_single_target i target out ps :
  Str.is_empty (normalize_base_url target) = false ->
  before_done i (scan_single_target E i target out ps).
Proof.
  intros Hb. unfold scan_single_target. rewrite Hb. cbn [before_done].
  split; [done |]. split; [|done].
  destruct (urlparse_netloc E _); [apply before_done_probe_paths | done].
Qed.

Lemma scan_worker_marks_inv task_id f t :
  start_scan task_id f = Created t -> marks_inv (scan_worker E t).
Proof.
  intros Hstart.
  destruct (start_scan_initial task_id f t Hstart)
    as (_ & _ & _ & _ & _ & _ & Hts & _).
  destruct (start_scan_created _ _ _ Hstart)
    as (raw & raw_paths & Hraw & _ & _ & Ht).
  split; cbn [scan_worker workers shared]; unfold submitted.
  { by rewrite length_imap. }
  intros i p. rewrite list_lookup_imap.
  destruct (targets t !! i) as [ts|] eqn:Hi; [|done].
  intros [= <-]. exists ts. split; [done |]. left.
  destruct (Forall_lookup_1 _ _ _ _ Hts Hi) as (Hst & _ & _ & _).
  split; [|by rewrite Hst].
  apply before_done_scan_single_target.
  apply (target_lines_elem f raw _ Hraw). apply fromkeys_elem.
  subst t. cbn [targets new_task] in Hi.
  rewrite list_lookup_fmap in Hi.
  destruct (fromkeys raw !! i) as [x|] eqn:Hx; [|done].
  injection Hi as <-. cbn [name]. by eapply list_elem_of_lookup_2.
Qed.

Lemma sys_step_marks c s s' :
  sys_step E c s = Some s' -> marks_inv s -> marks_inv s'.
Proof.
  intros Hstep [Hlen Hinv].
  assert (forall s1, targets (shared s1) = targets (shared s) ->
                     workers s1 = workers s -> marks_inv s1) as Hsame.
  { intros s1 Ht Hw. split; rewrite Ht, Hw; [done | apply Hinv]. }
  destruct c as [|i]; cbn [sys_step] in Hstep.
  - unfold main_step in Hstep.
    destruct (main s); try done; try (injection Hstep as <-; by apply Hsame).
    destruct (workers s !! i) as [[]|]; try done;
      try (injection Hstep as <-; by apply Hsame).
    destruct (forallb terminated (workers s)); [|done].
    injection Hstep as <-; by apply Hsame.
  - unfold worker_step in Hstep. destruct (pool_open (main s)); [|done].
    destruct (workers s !! i) as [p|] eqn:Hi; [|done]. cbn in Hstep.
    destruct (prog_step p (shared s)) as [[t' p']|] eqn:Hp; [|done].
    injection Hstep as <-.
    destruct (Hinv i p Hi) as (ts & Hts & Hcase).
    (* a step that leaves the table as it is *)
    assert (forall t1 p1, targets t1 = targets (shared s) ->
              (before_done i p1 /\ status ts <> Done
               \/ after_done p1 = true /\ status ts = Done) ->
              marks_inv {| shared := t1; workers := <[i:=p1]> (workers s);
                           main := main s |}) as Hkeep.
    { intros t1 p1 Ht1 Hp1. split; cbn [shared workers]; rewrite Ht1.
      { by rewrite length_insert. }
      intros j q. destruct (decide (i = j)) as [<-|Hne].
      - rewrite list_lookup_insert_eq by (by eapply lookup_lt_Some).
        intros [= <-]. eauto.
      - rewrite list_lookup_insert_ne by done. apply Hinv. }
    destruct p as [| |msg k|index u k h|base|base n total];
      cbn [prog_step] in Hp; try done.
    + injection Hp as <- <-. apply Hkeep; [done |].
      destruct Hcase as [[? ?]|[? ?]]; [by left | done].
    + destruct Hcase as [[Hbefore Hnot]|[? ?]]; [|done].
      assert (index = i) as ->.
      { destruct u as [[]|]; cbn [before_done] in Hbefore; by destruct Hbefore. }
      destruct (update_target_status_found (shared s) i u ts Hts)
        as (t1 & Hup & Hi1 & Hother & _).
      rewrite Hup in Hp. injection Hp as <- <-.
      split; cbn [shared workers].
      { rewrite length_insert. unfold update_target_status in Hup.
        case_bool_decide; [|done]. injection Hup as <-. cbn [targets].
        by rewrite length_alter. }
      intros j q. destruct (decide (i = j)) as [<-|Hne].
      * rewrite list_lookup_insert_eq by (by eapply lookup_lt_Some).
        intros [= <-]. exists (apply_update u ts). split; [done |].
        destruct u as [[]|]; cbn [before_done apply_update status] in *;
          destruct Hbefore as (_ & Hk & Hh); try (by left).
        right. split; [|done]. by destruct k.
      * rewrite list_lookup_insert_ne, Hother by done. apply Hinv.
    + injection Hp as <- <-. apply Hkeep; [done |].
      destruct Hcase as [[? ?]|[? ?]]; [done | by right].
    + injection Hp as <- <-. apply Hkeep; [done |].
      destruct Hcase as [[? ?]|[? ?]]; [done | by right].
Qed.

Lemma run_marks sched : forall s s',
  run E sched s = Some s' -> marks_inv s -> marks_inv s'.
Proof.
  induction sched as [|c rest IH]; intros s s'; cbn [run].
  - by intros [= <-].
  - destruct (sys_step E c s) as [s1|] eqn:Hc; [|done].
    intros Hrun Hs. apply (IH s1 s' Hrun). by eapply sys_step_marks.
Qed.

(** Entry by entry, a list with the marked entries among those of another
    has no more marked entries. *)
Lemma filter_length_le {A B} (P : A -> Prop) (Q : B -> Prop)
    `{!forall x, Decision (P x)} `{!forall y, Decision (Q y)}
    (l : list A) (k : list B) :
  Forall2 (fun x y => Q y -> P x) l k ->
  (length (filter Q k) <= length (filter P l))%nat.
Proof.
  induction 1 as [|x y l k Hxy _ IH]; [done |].
  rewrite !filter_cons. repeat case_decide; cbn [length]; try lia. tauto.
Qed.

Lemma marks_Forall2 s (R : target_status -> prog -> Prop) :
  marks_inv s ->
  (forall i ts p, targets (shared s) !! i = Some ts -> workers s !! i = Some p ->
     (before_done i p /\ status ts <> Done
      \/ after_done p = true /\ status ts = Done) -> R ts p) ->
  Forall2 R (targets (shared s)) (workers s).
Proof.
  intros [Hlen Hinv] HR. apply Forall2_same_length_lookup_2; [done |].
  intros i ts p Hts Hp. destruct (Hinv i p Hp) as (ts' & Hts' & Hcase).
  rewrite Hts in Hts'. injection Hts' as <-. eauto.
Qed.

(** [finished_targets] never runs ahead of the statuses: at every moment of
    the scan of a created task it is at most the number of targets marked
    done, and once [done] is set it is exactly that number. *)
Theorem finished_counts_done_targets (task_id : string) (f : form) (t : task)
    (sched : list choice) (s : sys) :
  start_scan task_id f = Created t ->
  run E sched (scan_worker E t) = Some s ->
  finished_targets (shared s)
  <= Z.of_nat (length (filter (fun ts => status ts = Done) (targets (shared s))))
  /\ (done (shared s) = true ->
      finished_targets (shared s)
      = Z.of_nat (length (filter (fun ts => status ts = Done)
                            (targets (shared s))))).
Proof.
  intros Hstart Hrun.
  pose proof (run_inv E _ _ _ Hrun (scan_worker_inv E _ _ _ Hstart)) as Hinv.
  pose proof (run_marks _ _ _ Hrun (scan_worker_marks_inv _ _ _ Hstart)) as Hmarks.
  split.
  - rewrite (inv_finished s Hinv). apply inj_le.
    apply (filter_length_le (fun ts => status ts = Done)
             (fun p => counted p = true)).
    apply marks_Forall2; [done |].
    intros i ts p _ _ [[Hb _]|[_ Hd]] Hc; [by destruct p | done].
  - intros Hdone.
    destruct (done_counts s Hinv Hdone) as (Hterm & Hfin & _).
    rewrite Hfin. f_equal. apply Nat.le_antisymm.
    + apply (filter_length_le (fun ts => status ts = Done)
               (fun p => returned p = true)).
      apply marks_Forall2; [done |].
      intros i ts p _ _ [[Hb _]|[_ Hd]] Hc; [by destruct p | done].
    + apply (filter_length_le (fun p => returned p = true)
               (fun ts => status ts = Done)).
      apply Forall2_flip. apply marks_Forall2; [done |].
      intros i ts p _ Hp [[_ Hn]|[Ha _]] Hd; [done |].
      apply (Forall_lookup_1 _ _ _ _ Hterm) in Hp. by destruct p.
Qed.

End Marks.

Lemma finished_counts_done_targets_witness :
  let f := {| targets_text := Some "a.example
b.example"; targets_file := NoFile;
              dict_text := Some "x.bak"; dict_file := NoFile;
              threads := None |} in
  let t := new_task "t1" ["a.example"; "b.example"] ["x.bak"] 5 in
  let E := plain_env (fun i _ u =>
             Got {| status_code := 200;
                    content_type_header := Some "application/zip";
                    content_length_header :=
                      Some (if decide (i = 1%nat) then "abc" else "100");
                    url := u; saves := true |}) in
  let s := {| shared :=
                {| id := "t1";
                   logs := [LogTaskStart 2 1 2;
                            LogDownloadDir "/srv/app/downloads";
                            LogScanStart "http://b.example/";
                            LogScanStart "http://a.example/";
                            LogTest "http://b.example/x.bak";
                            LogTest "http://a.example/x.bak";
                            LogFound "http://a.example/x.bak";
                            LogSavedTo
                              "/srv/app/downloads/a.example/a.example_x.bak";
                            LogTargetDone "http://a.example/" 1 2;
                            LogThreadError; LogTraceback; LogAllDone];
                   targets := [{| name := "a.example"; status := Done;
                                  found := 1 |};
                               {| name := "b.example"; status := Scanning;
                                  found := 0 |}];
                   total_targets := 2; finished_targets := 1;
                   paths := ["x.bak"]; max_workers := 5; done := true |};
              workers := [Return; Raise]; main := Stopped |} in
  finished_targets (shared s)
  <= Z.of_nat (length (filter (fun ts => status ts = Done) (targets (shared s))))
  /\ (done (shared s) = true ->
      finished_targets (shared s)
      = Z.of_nat (length (filter (fun ts => status ts = Done)
                            (targets (shared s))))).
Proof.
  intros f t E s.
  apply (finished_counts_done_targets E "t1" f t
           ([RunMain; RunMain; RunWorker 0; RunWorker 1; RunWorker 1;
             RunWorker 0; RunWorker 1; RunWorker 0]
            ++ replicate 6 (RunWorker 0) ++ replicate 6 RunMain) s);
    reflexivity.
Defined.
